(** * Zync scene detection: a shallow embedding of
    [src/ai_modules/scene_detection.py] and the properties of its detector.

    Modelling conventions.
    - The arithmetic is read twice.  The development first takes Python's
      floats as exact rationals ([Q]): this is the reading in which the
      invariants of the scan are proved, and they do not depend on how a
      value is rounded.  Module [F64] then gives the same code in IEEE 754
      binary64, Python's own arithmetic: the statements that pin which branch
      a test on a computed value takes (the acceptance rule of line 85, the
      clip floor of line 143) are made there.
    - [cv2] is an external library: its three calls are the fields of the
      interface [CV2].
    - A video capture is a record holding what [cv2.VideoCapture] reports
      ([isOpened], the two properties read with [cap.get]) and the finite
      stream of frames [cap.read] yields.
    - [print] is not modelled.  The calls on the capture, the progress callback
      and the file system are: [cap.read] is counted, the callback acts on a
      state of its own, and the calls of the splitter on [os], moviepy and
      [json] are logged.  In the rational reading only the body of the [try]
      block of lines 150-174 may fail; in [F64] so may [os.makedirs],
      [VideoFileClip], [video.close] and the writing of the report.
    - A progress callback is a total function of the percentage and of the
      caller's state: it neither raises nor reaches the detector or the
      capture. *)

From Stdlib Require Import QArith ZArith List String Bool Lia Lqa PeanoNat Sorted.
From Stdlib Require Floats.
Import ListNotations.

Local Open Scope string_scope.
Local Open Scope list_scope.
Local Open Scope Q_scope.

(** ** Python primitives *)

Module Py.

(** The exceptions the module can raise: [raise Exception(msg)] and the
    interpreter's own [ZeroDivisionError]. *)
Inductive exn : Type :=
| Exception (msg : string)
| ZeroDivisionError.

Inductive result (A : Type) : Type :=
| Ok (a : A)
| Raise (e : exn).
Arguments Ok {A} a.
Arguments Raise {A} e.

Definition bind {A B : Type} (m : result A) (k : A -> result B) : result B :=
  match m with
  | Ok a => k a
  | Raise e => Raise e
  end.

(** [a / b] on numbers: true division, raising on a zero divisor. *)
Definition truediv (a b : Q) : result Q :=
  if Qeq_bool b 0 then Raise ZeroDivisionError else Ok (a / b).

(** [int(x)] on a float: truncation towards zero. *)
Definition int (x : Q) : Z := Z.quot (Qnum x) (Zpos (Qden x)).

(** [a > b], [a >= b] and [a < b]. *)
Definition gt (a b : Q) : bool := negb (Qle_bool a b).
Definition ge (a b : Q) : bool := Qle_bool b a.
Definition lt (a b : Q) : bool := negb (Qle_bool b a).

(** An [int] used as a number. *)
Definition of_nat (n : nat) : Q := inject_Z (Z.of_nat n).

(** [l[-1]] on a non-empty list of numbers. *)
Definition last (l : list Q) : Q := List.last l 0.

End Py.

Import Py.

Declare Scope py_scope.
Notation "x <- m ;; k" := (Py.bind m (fun x => k))
  (at level 61, m at next level, right associativity) : py_scope.
Local Open Scope py_scope.

(** ** The [cv2] interface *)

(** [cv2.cvtColor(frame, cv2.COLOR_BGR2GRAY)], [cv2.calcHist(images, channels,
    mask, histSize, ranges)] and [cv2.compareHist(h1, h2, cv2.HISTCMP_CORREL)]. *)
Class CV2 : Type := {
  Frame : Type;
  GrayImage : Type;
  Mask : Type;
  Hist : Type;
  cvtColor_BGR2GRAY : Frame -> GrayImage;
  calcHist : list GrayImage -> list nat -> option Mask -> list nat -> list Z -> Hist;
  compareHist_CORREL : Hist -> Hist -> Q
}.

(** What [cv2.VideoCapture(video_path)] gives access to. *)
Record VideoCapture {cv : CV2} : Type := {
  video_path : string;
  isOpened : bool;
  CAP_PROP_FPS : Q;
  CAP_PROP_FRAME_COUNT : Q;
  stream : list Frame
}.

(** ** The detector object *)

Record SceneDetector : Type := {
  threshold : Q;
  min_scene_length : Q;
  scene_timestamps : list (Q * Q)
}.

(** [SceneDetector.__init__] (lines 11-21). *)
Definition init (threshold min_scene_length : Q) : SceneDetector :=
  {| threshold := threshold;
     min_scene_length := min_scene_length;
     scene_timestamps := [] |}.

(** The constructor's defaults: [SceneDetector()]. *)
Definition init_default : SceneDetector := init 30 2.

Section Detection.

Context {cv : CV2}.

(** The state a progress callback acts on: the callback is given the
    percentage only, so what it touches is the caller's. *)
Context {W : Type}.

Definition callback : Type := Q -> W -> W.

(** The histogram of lines 30-31: 256 buckets over the range [0, 256). *)
Definition histogram (gray : GrayImage) : Hist :=
  calcHist [gray] [0%nat] None [256%nat] [0%Z; 256%Z].

(** [SceneDetector.calculate_frame_difference] (lines 23-39). *)
Definition calculate_frame_difference (frame1 frame2 : Frame) : Q :=
  let gray1 := cvtColor_BGR2GRAY frame1 in
  let gray2 := cvtColor_BGR2GRAY frame2 in
  let hist1 := histogram gray1 in
  let hist2 := histogram gray2 in
  let correlation := compareHist_CORREL hist1 hist2 in
  let difference := (1 - correlation) * 100 in
  difference.

(** The local variables of [detect_scenes] while it scans, with the count of
    [cap.read()] calls made so far and the callback's state. *)
Record locals : Type := {
  scene_changes : list Q;
  prev_frame : option Frame;
  frame_count : nat;
  reads : nat;
  sink : W
}.

(** Lines 66-69. *)
Definition initial (w : W) : locals :=
  {| scene_changes := [0]; prev_frame := None; frame_count := 0;
     reads := 0; sink := w |}.

(** Lines 77-87: the boundary list after the frame just read is compared
    with its predecessor. *)
Definition consider_frame (self : SceneDetector) (fps : Q) (st : locals)
    (frame : Frame) : result (list Q) :=
  match prev_frame st with
  | Some prev =>
      let difference := calculate_frame_difference prev frame in
      if gt difference (threshold self) then
        timestamp <- truediv (of_nat (frame_count st)) fps ;;
        if (List.length (scene_changes st) =? 1)%nat
           || ge (timestamp - last (scene_changes st)) (min_scene_length self)
        then Ok (scene_changes st ++ [timestamp])
        else Ok (scene_changes st)
      else Ok (scene_changes st)
  | None => Ok (scene_changes st)
  end.

(** Lines 92-95, with [frame_count] already incremented. *)
Definition notify_progress (progress_callback : option callback)
    (total_frames : Z) (frame_count : nat) (w : W) : result W :=
  match progress_callback with
  | Some cb =>
      if (frame_count mod 30 =? 0)%nat then
        ratio <- truediv (of_nat frame_count) (inject_Z total_frames) ;;
        let progress := ratio * 100 in
        Ok (cb progress w)
      else Ok w
  | None => Ok w
  end.

(** One iteration of the [while] loop for a frame that was read
    (lines 77-95). *)
Definition loop_body (self : SceneDetector) (fps : Q) (total_frames : Z)
    (progress_callback : option callback) (st : locals) (frame : Frame)
    : result locals :=
  changes <- consider_frame self fps st frame ;;
  let count := S (frame_count st) in
  w <- notify_progress progress_callback total_frames count (sink st) ;;
  Ok {| scene_changes := changes; prev_frame := Some frame;
        frame_count := count; reads := reads st; sink := w |}.

(** One more call of [cap.read()] (line 73). *)
Definition read_once (st : locals) : locals :=
  {| scene_changes := scene_changes st; prev_frame := prev_frame st;
     frame_count := frame_count st; reads := S (reads st); sink := sink st |}.

(** The [while True] loop (lines 72-95) over the frames [cap.read()] still
    has to yield.  It ends at the read that returns [ret = False], or at an
    exception; either way the locals at that point are returned. *)
Fixpoint scan (self : SceneDetector) (fps : Q) (total_frames : Z)
    (progress_callback : option callback) (frames : list Frame) (st : locals)
    : locals * option exn :=
  match frames with
  | [] => (read_once st, None)
  | frame :: rest =>
      match loop_body self fps total_frames progress_callback (read_once st) frame with
      | Ok st' => scan self fps total_frames progress_callback rest st'
      | Raise e => (read_once st, Some e)
      end
  end.

(** Lines 101-102: [[(l[i], l[i + 1]) for i in range(len(l) - 1)]]. *)
Definition scene_pairs (l : list Q) : list (Q * Q) :=
  map (fun i => (nth i l 0, nth (i + 1) l 0)) (seq 0 (List.length l - 1)).

(** How a call of [detect_scenes] ends: the detector after the call, the
    number of [cap.read()] calls made, the callback's state, and the value
    returned or the exception raised. *)
Record outcome : Type := {
  detector : SceneDetector;
  cap_reads : nat;
  progress_sink : W;
  returned : result (list (Q * Q))
}.

(** [SceneDetector.detect_scenes] (lines 41-107). *)
Definition detect_scenes (self : SceneDetector) (cap : VideoCapture)
    (progress_callback : option callback) (w : W) : outcome :=
  if negb (isOpened cap) then
    {| detector := self; cap_reads := 0; progress_sink := w;
       returned := Raise (Exception (String.append "Error: Could not open video "
                                                  (video_path cap))) |}
  else
    let fps := CAP_PROP_FPS cap in
    let total_frames := int (CAP_PROP_FRAME_COUNT cap) in
    match truediv (inject_Z total_frames) fps with
    | Raise e =>
        {| detector := self; cap_reads := 0; progress_sink := w;
           returned := Raise e |}
    | Ok duration =>
        match scan self fps total_frames progress_callback (stream cap) (initial w) with
        | (st, Some e) =>
            {| detector := self; cap_reads := reads st;
               progress_sink := sink st; returned := Raise e |}
        | (st, None) =>
            let changes := scene_changes st ++ [duration] in
            let timestamps := scene_pairs changes in
            {| detector := {| threshold := threshold self;
                              min_scene_length := min_scene_length self;
                              scene_timestamps := timestamps |};
               cap_reads := reads st; progress_sink := sink st;
               returned := Ok timestamps |}
        end
    end.

End Detection.

(** ** Splitting into clips *)

(** The report written to [<video_name>_scene_info.json] (lines 179-195). *)
Module Report.

Record scene : Type := {
  scene_number : nat;
  start_time : Q;
  end_time : Q;
  duration : Q
}.

Record scene_info : Type := {
  source_video : string;
  total_scenes : nat;
  created_clips : nat;
  detection_threshold : Q;
  min_scene_length : Q;
  scenes : list scene;
  timestamp : string
}.

End Report.

(** The calls [split_video_into_scenes] makes on the file system and on
    moviepy, in the order it makes them.  [WriteVideofile i p s e ok] is the
    [subclip(s, e)] and [write_videofile(p)] of the interval at index [i];
    [ok] is false when the [try] block raised. *)
Inductive call : Type :=
| Makedirs (output_dir : string)
| VideoFileClip (video_path : string)
| WriteVideofile (i : nat) (output_path : string) (start_time end_time : Q) (ok : bool)
| JsonDump (info_file : string) (info : Report.scene_info).

(** The environment of the splitter: [os.path], the clip file name of line
    155, the clip writer and the clock. *)
Class Env : Type := {
  video_name_of : string -> string;
  path_join : string -> string -> string;
  output_filename_of : string -> nat -> Q -> Q -> string;
  write_videofile : nat -> string -> Q -> Q -> bool;
  now_isoformat : string
}.

Section Splitting.

Context {env : Env}.

(** [enumerate(l)], from index [i]. *)
Fixpoint enumerate_from {A : Type} (i : nat) (l : list A) : list (nat * A) :=
  match l with
  | [] => []
  | a :: l' => (i, a) :: enumerate_from (S i) l'
  end.

Definition enumerate {A : Type} (l : list A) : list (nat * A) :=
  enumerate_from 0 l.

(** The [for] loop of lines 140-174 over the intervals still to visit:
    [created_clips] and the calls made, both extended at the end. *)
Fixpoint split_loop (output_dir video_name : string)
    (todo : list (nat * (Q * Q))) (created_clips : list string)
    (calls : list call) : list string * list call :=
  match todo with
  | [] => (created_clips, calls)
  | (i, (start_time, end_time)) :: rest =>
      let scene_duration := end_time - start_time in
      if lt scene_duration (1 # 2) then
        split_loop output_dir video_name rest created_clips calls
      else
        let output_filename :=
          output_filename_of video_name (i + 1) start_time end_time in
        let output_path := path_join output_dir output_filename in
        let ok := write_videofile i output_path start_time end_time in
        let calls' :=
          calls ++ [WriteVideofile i output_path start_time end_time ok] in
        if ok then
          split_loop output_dir video_name rest (created_clips ++ [output_path]) calls'
        else
          split_loop output_dir video_name rest created_clips calls'
  end.

(** Lines 185-193. *)
Definition report_scenes (scene_timestamps : list (Q * Q)) : list Report.scene :=
  map (fun '(i, (start, end_)) =>
         {| Report.scene_number := i + 1;
            Report.start_time := start;
            Report.end_time := end_;
            Report.duration := end_ - start |})
      (enumerate scene_timestamps).

(** [SceneDetector.split_video_into_scenes] (lines 109-206): the calls made
    and the list returned or the exception raised. *)
Definition split_video_into_scenes (self : SceneDetector)
    (video_path output_dir : string)
    (timestamps_arg : option (list (Q * Q)))
    : list call * result (list string) :=
  let timestamps :=
    match timestamps_arg with
    | None => scene_timestamps self
    | Some l => l
    end in
  match timestamps with
  | [] =>
      ([], Raise (Exception "No scene timestamps available. Run detect_scenes() first."))
  | _ :: _ =>
      let video_name := video_name_of video_path in
      let '(created_clips, calls) :=
        split_loop output_dir video_name (enumerate timestamps) []
                   [Makedirs output_dir; VideoFileClip video_path] in
      let scene_info :=
        {| Report.source_video := video_path;
           Report.total_scenes := List.length timestamps;
           Report.created_clips := List.length created_clips;
           Report.detection_threshold := threshold self;
           Report.min_scene_length := min_scene_length self;
           Report.scenes := report_scenes timestamps;
           Report.timestamp := now_isoformat |} in
      let info_file :=
        path_join output_dir (String.append video_name "_scene_info.json") in
      (calls ++ [JsonDump info_file scene_info], Ok created_clips)
  end.

End Splitting.

(** ** Reference notions used in the statements *)

(** The two tests of lines 82 and 85, as propositions. *)
Definition passes (self : SceneDetector) (scene_changes : list Q)
    (difference timestamp : Q) : Prop :=
  threshold self < difference /\
  (List.length scene_changes = 1%nat \/
   min_scene_length self <= timestamp - last scene_changes).

(** Consecutive elements of a list, paired. *)
Definition consecutive (l : list Q) : list (Q * Q) := combine l (tl l).

(** Every two consecutive elements are at least [gap] apart. *)
Definition spaced (gap : Q) (l : list Q) : Prop :=
  Forall (fun p => gap <= snd p - fst p) (consecutive l).

(** Every element is smaller than the next. *)
Definition increasing (l : list Q) : Prop :=
  Forall (fun p => fst p < snd p) (consecutive l).

(** The intervals touch: each ends where the next starts. *)
Definition contiguous (ivs : list (Q * Q)) : Prop :=
  forall i a b, nth_error ivs i = Some a -> nth_error ivs (S i) = Some b ->
    snd a = fst b.

Section Notions.

Context {cv : CV2} {W : Type}.

(** The locals after the loop has gone through [frames], the source not yet
    known to be exhausted. *)
Fixpoint iterate (self : SceneDetector) (fps : Q) (total_frames : Z)
    (progress_callback : option (@callback W)) (frames : list Frame)
    (st : @locals cv W) : result (@locals cv W) :=
  match frames with
  | [] => Ok st
  | frame :: rest =>
      st' <- loop_body self fps total_frames progress_callback (read_once st) frame ;;
      iterate self fps total_frames progress_callback rest st'
  end.

(** The boundaries found so far start at 0, increase, and none is later than
    the time of the last frame gone through. *)
Definition ordered (fps : Q) (st : @locals cv W) : Prop :=
  (exists bs, scene_changes st = 0 :: bs) /\
  increasing (scene_changes st) /\
  last (scene_changes st) <= of_nat (Nat.pred (frame_count st)) / fps /\
  (prev_frame st <> None -> (1 <= frame_count st)%nat).

(** The boundaries found so far after the initial 0 keep the minimum scene
    length between one another. *)
Definition well_spaced (self : SceneDetector) (st : @locals cv W) : Prop :=
  exists bs, scene_changes st = 0 :: bs /\ spaced (min_scene_length self) bs.

(** The duration of line 62 when the division goes through. *)
Definition duration_of (cap : VideoCapture) : Q :=
  inject_Z (int (CAP_PROP_FRAME_COUNT cap)) / CAP_PROP_FPS cap.

End Notions.

(** Two runs over the same frames, [lo] under settings no higher than those of
    [hi]: [hi] has found no more boundaries than [lo], and when it has found
    as many, the last one of [lo] is no later than the last one of [hi]. *)
Definition ahead {cv : CV2} {W1 W2 : Type}
    (lo : @locals cv W1) (hi : @locals cv W2) : Prop :=
  prev_frame lo = prev_frame hi /\
  frame_count lo = frame_count hi /\
  (List.length (scene_changes hi) <= List.length (scene_changes lo))%nat /\
  (List.length (scene_changes hi) = List.length (scene_changes lo) ->
   last (scene_changes lo) <= last (scene_changes hi)).

(** Two scans agree on everything but the callback's state. *)
Definition same_scan {cv : CV2} {W1 W2 : Type}
    (s1 : @locals cv W1) (s2 : @locals cv W2) : Prop :=
  scene_changes s1 = scene_changes s2 /\
  prev_frame s1 = prev_frame s2 /\
  frame_count s1 = frame_count s2 /\
  reads s1 = reads s2.

Section SplittingNotions.

Context {env : Env}.

(** An enumerated interval reaches the clip floor of line 143. *)
Definition long_enough (p : nat * (Q * Q)) : bool :=
  negb (lt (snd (snd p) - fst (snd p)) (1 # 2)).

(** The path of the clip of an enumerated interval (lines 155-156). *)
Definition clip_path (output_dir video_name : string) (p : nat * (Q * Q)) : string :=
  path_join output_dir
    (output_filename_of video_name (fst p + 1) (fst (snd p)) (snd (snd p))).

(** Whether the writer succeeds on an enumerated interval. *)
Definition written (output_dir video_name : string) (p : nat * (Q * Q)) : bool :=
  write_videofile (fst p) (clip_path output_dir video_name p)
    (fst (snd p)) (snd (snd p)).

(** The call made for an enumerated interval that is not skipped. *)
Definition attempt (output_dir video_name : string) (p : nat * (Q * Q)) : call :=
  WriteVideofile (fst p) (clip_path output_dir video_name p)
    (fst (snd p)) (snd (snd p)) (written output_dir video_name p).

End SplittingNotions.

(** ** A concrete instance: single-colour frames

    A frame filled with one grey level has a histogram with one non-empty
    bucket.  Two such histograms correlate with coefficient 1 when the levels
    agree and -1/255 when they differ, which is what the correlation formula
    gives on two distinct indicator vectors of length 256. *)
Module Solid.

#[export] Instance cv2 : CV2 := {|
  Frame := Z;
  GrayImage := Z;
  Mask := unit;
  Hist := Z;
  cvtColor_BGR2GRAY := fun level => level;
  calcHist := fun images _ _ _ _ => hd 0%Z images;
  compareHist_CORREL := fun h1 h2 => if (h1 =? h2)%Z then 1 else - (1 # 255)
|}.

(** A callback that records the percentages it is given. *)
Definition record_progress : @callback (list Q) := fun p seen => seen ++ [p].

Definition capture (fps frame_count : Q) (frames : list Z) : VideoCapture :=
  {| video_path := "input.mp4"; isOpened := true; CAP_PROP_FPS := fps;
     CAP_PROP_FRAME_COUNT := frame_count; stream := frames |}.

(** An environment whose writer fails on the interval at index 2. *)
#[export] Instance env : Env := {|
  video_name_of := fun p => p;
  path_join := fun d f => String.append d (String.append "/" f);
  output_filename_of := fun name i _ _ =>
    String.append name (String.append "_scene_" (String (Ascii.ascii_of_nat (48 + i)) ".mp4"));
  write_videofile := fun i _ _ _ => negb (i =? 2)%nat;
  now_isoformat := "2024-01-01T00:00:00"
|}.

End Solid.

(** ** The module in binary64

    The same code with Python's floats as they are: IEEE 754 binary64 numbers
    with round-to-nearest-even operations and the comparisons of the standard.
    This reading decides what the code does where a test falls on a rounded
    value: the minimum-length gate of line 85 and the clip floor of line 143.
    The calls on [os], moviepy and [json] outside the [try] block may raise
    here.  Integers used as numbers ([0] at the head of [scene_changes],
    [frame_count], [total_frames]) are converted as Python converts them. *)
Module F64.

Import FloatClass PrimFloat SpecFloat FloatOps.

Inductive exn : Type :=
| Exception (msg : string)
| ZeroDivisionError
| ValueError
| OverflowError
| LibraryError (name : string).

Inductive result (A : Type) : Type :=
| Ok (a : A)
| Raise (e : exn).
Arguments Ok {A} a.
Arguments Raise {A} e.

Definition bind {A B : Type} (m : result A) (k : A -> result B) : result B :=
  match m with
  | Ok a => k a
  | Raise e => Raise e
  end.

Notation "x <- m ;; k" := (bind m (fun x => k))
  (at level 61, m at next level, right associativity).

(** [float(n)] as the arithmetic operators apply it to an [int]: the nearest
    float, ties to even, or [OverflowError]. *)
Definition of_int (n : Z) : result float :=
  let x := SF2Prim (binary_normalize prec emax n 0 false) in
  if is_infinity x then Raise OverflowError else Ok x.

(** [int(x)]: truncation towards zero; [ValueError] on a NaN and
    [OverflowError] on an infinity. *)
Definition int (x : float) : result Z :=
  match Prim2SF x with
  | S754_zero _ => Ok 0%Z
  | S754_nan => Raise ValueError
  | S754_infinity _ => Raise OverflowError
  | S754_finite s m e =>
      let magnitude :=
        match e with
        | Zneg p => Z.shiftr (Zpos m) (Zpos p)
        | _ => Z.shiftl (Zpos m) e
        end in
      Ok (if s then Z.opp magnitude else magnitude)
  end.

(** [a / b] for an [int] over a [float]. *)
Definition truediv (a : Z) (b : float) : result float :=
  x <- of_int a ;;
  if (b =? 0)%float then Raise ZeroDivisionError else Ok (x / b)%float.

(** [a / b] for two [int]s.  Python rounds the exact quotient once; dividing
    the converted operands is the same whenever both are below 2^53 in
    magnitude, as frame counts are. *)
Definition truediv_int (a b : Z) : result float :=
  if (b =? 0)%Z then Raise ZeroDivisionError
  else x <- of_int a ;; y <- of_int b ;; Ok (x / y)%float.

(** [a > b], [a >= b] and [a < b]: false when either side is a NaN. *)
Definition gt (a b : float) : bool := (b <? a)%float.
Definition ge (a b : float) : bool := (b <=? a)%float.
Definition lt (a b : float) : bool := (a <? b)%float.

(** [l[-1]] on a non-empty list of numbers. *)
Definition last (l : list float) : float := List.last l 0%float.

Class CV2 : Type := {
  Frame : Type;
  GrayImage : Type;
  Mask : Type;
  Hist : Type;
  cvtColor_BGR2GRAY : Frame -> GrayImage;
  calcHist : list GrayImage -> list nat -> option Mask -> list nat -> list Z -> Hist;
  compareHist_CORREL : Hist -> Hist -> float
}.

Record VideoCapture {cv : CV2} : Type := {
  video_path : string;
  isOpened : bool;
  CAP_PROP_FPS : float;
  CAP_PROP_FRAME_COUNT : float;
  stream : list Frame
}.

Record SceneDetector : Type := {
  threshold : float;
  min_scene_length : float;
  scene_timestamps : list (float * float)
}.

(** [SceneDetector.__init__] (lines 11-21). *)
Definition init (threshold min_scene_length : float) : SceneDetector :=
  {| threshold := threshold;
     min_scene_length := min_scene_length;
     scene_timestamps := [] |}.

Section Detection.

Context {cv : CV2} {W : Type}.

Definition callback : Type := float -> W -> W.

(** [SceneDetector.calculate_frame_difference] (lines 23-39). *)
Definition calculate_frame_difference (frame1 frame2 : Frame) : float :=
  let gray1 := cvtColor_BGR2GRAY frame1 in
  let gray2 := cvtColor_BGR2GRAY frame2 in
  let hist1 := calcHist [gray1] [0%nat] None [256%nat] [0%Z; 256%Z] in
  let hist2 := calcHist [gray2] [0%nat] None [256%nat] [0%Z; 256%Z] in
  let correlation := compareHist_CORREL hist1 hist2 in
  let difference := ((1 - correlation) * 100)%float in
  difference.

Record locals : Type := {
  scene_changes : list float;
  prev_frame : option Frame;
  frame_count : nat;
  reads : nat;
  sink : W
}.

(** Lines 66-69. *)
Definition initial (w : W) : locals :=
  {| scene_changes := [0%float]; prev_frame := None; frame_count := 0;
     reads := 0; sink := w |}.

(** Lines 77-87. *)
Definition consider_frame (self : SceneDetector) (fps : float) (st : locals)
    (frame : Frame) : result (list float) :=
  match prev_frame st with
  | Some prev =>
      let difference := calculate_frame_difference prev frame in
      if gt difference (threshold self) then
        timestamp <- truediv (Z.of_nat (frame_count st)) fps ;;
        if (List.length (scene_changes st) =? 1)%nat
           || ge (timestamp - last (scene_changes st))%float (min_scene_length self)
        then Ok (scene_changes st ++ [timestamp])
        else Ok (scene_changes st)
      else Ok (scene_changes st)
  | None => Ok (scene_changes st)
  end.

(** Lines 92-95, with [frame_count] already incremented. *)
Definition notify_progress (progress_callback : option callback)
    (total_frames : Z) (frame_count : nat) (w : W) : result W :=
  match progress_callback with
  | Some cb =>
      if (frame_count mod 30 =? 0)%nat then
        ratio <- truediv_int (Z.of_nat frame_count) total_frames ;;
        let progress := (ratio * 100)%float in
        Ok (cb progress w)
      else Ok w
  | None => Ok w
  end.

(** One iteration of the [while] loop for a frame that was read. *)
Definition loop_body (self : SceneDetector) (fps : float) (total_frames : Z)
    (progress_callback : option callback) (st : locals) (frame : Frame)
    : result locals :=
  changes <- consider_frame self fps st frame ;;
  let count := S (frame_count st) in
  w <- notify_progress progress_callback total_frames count (sink st) ;;
  Ok {| scene_changes := changes; prev_frame := Some frame;
        frame_count := count; reads := reads st; sink := w |}.

(** One more call of [cap.read()] (line 73). *)
Definition read_once (st : locals) : locals :=
  {| scene_changes := scene_changes st; prev_frame := prev_frame st;
     frame_count := frame_count st; reads := S (reads st); sink := sink st |}.

(** The [while True] loop (lines 72-95). *)
Fixpoint scan (self : SceneDetector) (fps : float) (total_frames : Z)
    (progress_callback : option callback) (frames : list Frame) (st : locals)
    : locals * option exn :=
  match frames with
  | [] => (read_once st, None)
  | frame :: rest =>
      match loop_body self fps total_frames progress_callback (read_once st) frame with
      | Ok st' => scan self fps total_frames progress_callback rest st'
      | Raise e => (read_once st, Some e)
      end
  end.

(** Lines 101-102. *)
Definition scene_pairs (l : list float) : list (float * float) :=
  map (fun i => (nth i l 0%float, nth (i + 1) l 0%float))
      (seq 0 (List.length l - 1)).

Record outcome : Type := {
  detector : SceneDetector;
  cap_reads : nat;
  progress_sink : W;
  returned : result (list (float * float))
}.

(** [SceneDetector.detect_scenes] (lines 41-107). *)
Definition detect_scenes (self : SceneDetector) (cap : VideoCapture)
    (progress_callback : option callback) (w : W) : outcome :=
  let failed e reads w :=
    {| detector := self; cap_reads := reads; progress_sink := w;
       returned := Raise e |} in
  if negb (isOpened cap) then
    failed (Exception (String.append "Error: Could not open video "
                                     (video_path cap))) 0%nat w
  else
    let fps := CAP_PROP_FPS cap in
    match int (CAP_PROP_FRAME_COUNT cap) with
    | Raise e => failed e 0%nat w
    | Ok total_frames =>
        match truediv total_frames fps with
        | Raise e => failed e 0%nat w
        | Ok duration =>
            match scan self fps total_frames progress_callback (stream cap)
                       (initial w) with
            | (st, Some e) => failed e (reads st) (sink st)
            | (st, None) =>
                let changes := scene_changes st ++ [duration] in
                let timestamps := scene_pairs changes in
                {| detector := {| threshold := threshold self;
                                  min_scene_length := min_scene_length self;
                                  scene_timestamps := timestamps |};
                   cap_reads := reads st; progress_sink := sink st;
                   returned := Ok timestamps |}
            end
        end
    end.

End Detection.

(** The report of lines 179-195. *)
Record scene : Type := {
  scene_number : nat;
  start_time : float;
  end_time : float;
  duration : float
}.

Record scene_info : Type := {
  source_video : string;
  total_scenes : nat;
  created_clips : nat;
  detection_threshold : float;
  info_min_scene_length : float;
  scenes : list scene;
  timestamp : string
}.

(** The calls of [split_video_into_scenes] on [os], moviepy and [json], in
    the order it makes them; a call that raised is the last of the log. *)
Inductive call : Type :=
| Makedirs (output_dir : string)
| VideoFileClip (video_path : string)
| WriteVideofile (i : nat) (output_path : string) (start_time end_time : float)
    (ok : bool)
| VideoClose
| JsonDump (info_file : string) (info : scene_info).

(** The environment of the splitter.  [makedirs], [load], [close] and [dump]
    give the exception that [os.makedirs(..., exist_ok=True)],
    [VideoFileClip(...)], [video.close()] and [open] with [json.dump] raise,
    if any; [write_videofile] says whether the [try] block of lines 150-174
    went through. *)
Class Env : Type := {
  video_name_of : string -> string;
  path_join : string -> string -> string;
  output_filename_of : string -> nat -> float -> float -> string;
  makedirs : string -> option exn;
  load : string -> option exn;
  write_videofile : nat -> string -> float -> float -> bool;
  close : string -> option exn;
  dump : string -> scene_info -> option exn;
  now_isoformat : string;
  now_strftime : string
}.

Section Splitting.

Context {env : Env}.

(** The [for] loop of lines 140-174. *)
Fixpoint split_loop (output_dir video_name : string)
    (todo : list (nat * (float * float))) (created_clips : list string)
    (calls : list call) : list string * list call :=
  match todo with
  | [] => (created_clips, calls)
  | (i, (start_time, end_time)) :: rest =>
      let scene_duration := (end_time - start_time)%float in
      if lt scene_duration 0.5%float then
        split_loop output_dir video_name rest created_clips calls
      else
        let output_filename :=
          output_filename_of video_name (i + 1) start_time end_time in
        let output_path := path_join output_dir output_filename in
        let ok := write_videofile i output_path start_time end_time in
        let calls' :=
          calls ++ [WriteVideofile i output_path start_time end_time ok] in
        if ok then
          split_loop output_dir video_name rest (created_clips ++ [output_path]) calls'
        else
          split_loop output_dir video_name rest created_clips calls'
  end.

(** Lines 185-193. *)
Definition report_scenes (timestamps : list (float * float)) : list scene :=
  map (fun '(i, (start, end_)) =>
         {| scene_number := i + 1;
            start_time := start;
            end_time := end_;
            duration := (end_ - start)%float |})
      (enumerate timestamps).

(** [SceneDetector.split_video_into_scenes] (lines 109-206). *)
Definition split_video_into_scenes (self : SceneDetector)
    (video_path output_dir : string)
    (timestamps_arg : option (list (float * float)))
    : list call * result (list string) :=
  let timestamps :=
    match timestamps_arg with
    | None => scene_timestamps self
    | Some l => l
    end in
  match timestamps with
  | [] =>
      ([], Raise (Exception "No scene timestamps available. Run detect_scenes() first."))
  | _ :: _ =>
      match makedirs output_dir with
      | Some e => ([Makedirs output_dir], Raise e)
      | None =>
          let video_name := video_name_of video_path in
          match load video_path with
          | Some e => ([Makedirs output_dir; VideoFileClip video_path], Raise e)
          | None =>
              let '(created_clips, calls) :=
                split_loop output_dir video_name (enumerate timestamps) []
                           [Makedirs output_dir; VideoFileClip video_path] in
              match close video_path with
              | Some e => (calls ++ [VideoClose], Raise e)
              | None =>
                  let scene_info :=
                    {| source_video := video_path;
                       total_scenes := List.length timestamps;
                       created_clips := List.length created_clips;
                       detection_threshold := threshold self;
                       info_min_scene_length := min_scene_length self;
                       scenes := report_scenes timestamps;
                       timestamp := now_isoformat |} in
                  let info_file :=
                    path_join output_dir
                      (String.append video_name "_scene_info.json") in
                  let calls' := calls ++ [VideoClose; JsonDump info_file scene_info] in
                  match dump info_file scene_info with
                  | Some e => (calls', Raise e)
                  | None => (calls', Ok created_clips)
                  end
              end
          end
      end
  end.

Context {cv : CV2} {W : Type}.

(** How a call of [process_video] ends. *)
Record processed : Type := {
  processed_detector : SceneDetector;
  processed_reads : nat;
  processed_sink : W;
  processed_calls : list call;
  processed_returned : result (list (float * float) * list string)
}.

(** [SceneDetector.process_video] (lines 208-234).  The video is the one the
    capture opens, so [video_path] is the capture's. *)
Definition process_video (self : SceneDetector) (cap : VideoCapture)
    (output_dir : option string) (progress_callback : option (@callback W))
    (w : W) : processed :=
  let video_path := video_path cap in
  let output_dir :=
    match output_dir with
    | None =>
        let video_name := video_name_of video_path in
        let timestamp := now_strftime in
        String.append "output/scenes_"
          (String.append video_name (String.append "_" timestamp))
    | Some d => d
    end in
  let detected := detect_scenes self cap progress_callback w in
  match returned detected with
  | Raise e =>
      {| processed_detector := detector detected;
         processed_reads := cap_reads detected;
         processed_sink := progress_sink detected;
         processed_calls := [];
         processed_returned := Raise e |}
  | Ok scene_timestamps =>
      let '(calls, split) :=
        split_video_into_scenes (detector detected) video_path output_dir
          (Some scene_timestamps) in
      {| processed_detector := detector detected;
         processed_reads := cap_reads detected;
         processed_sink := progress_sink detected;
         processed_calls := calls;
         processed_returned :=
           match split with
           | Ok created_clips => Ok (scene_timestamps, created_clips)
           | Raise e => Raise e
           end |}
  end.

End Splitting.

(** *** Notions for the statements *)

(** The locals after the loop has gone through [frames]. *)
Fixpoint iterate {cv : CV2} {W : Type} (self : SceneDetector) (fps : float)
    (total_frames : Z) (progress_callback : option (@callback W))
    (frames : list Frame) (st : @locals cv W) : result (@locals cv W) :=
  match frames with
  | [] => Ok st
  | frame :: rest =>
      st' <- loop_body self fps total_frames progress_callback (read_once st) frame ;;
      iterate self fps total_frames progress_callback rest st'
  end.

(** Consecutive elements of a list, paired. *)
Definition consecutive (l : list float) : list (float * float) :=
  combine l (tl l).

(** The boundaries a returned interval list was paired from, the final one
    apart: the starts of the intervals. *)
Definition boundaries_of (ivs : list (float * float)) : list float :=
  map fst ivs.

(** The same capture over another stream. *)
Definition with_stream {cv : CV2} (cap : VideoCapture) (frames : list Frame)
    : VideoCapture :=
  {| video_path := video_path cap; isOpened := isOpened cap;
     CAP_PROP_FPS := CAP_PROP_FPS cap;
     CAP_PROP_FRAME_COUNT := CAP_PROP_FRAME_COUNT cap;
     stream := frames |}.

(** The acceptance rule as the specification words it, in the code's
    arithmetic: the score exceeds the threshold, and the boundary list holds
    its initial 0 only or the candidate is at least the minimum scene length
    after the last boundary. *)
Definition accepts (self : SceneDetector) (boundaries : list float)
    (d t : float) : Prop :=
  gt d (threshold self) = true /\
  (boundaries = [0%float] \/
   ge (t - last boundaries)%float (min_scene_length self) = true).

Section SplittingNotions.

Context {env : Env}.

(** An enumerated interval reaches the clip floor of line 143. *)
Definition long_enough (p : nat * (float * float)) : bool :=
  negb (lt (snd (snd p) - fst (snd p))%float 0.5%float).

Definition clip_path (output_dir video_name : string)
    (p : nat * (float * float)) : string :=
  path_join output_dir
    (output_filename_of video_name (fst p + 1) (fst (snd p)) (snd (snd p))).

Definition written (output_dir video_name : string)
    (p : nat * (float * float)) : bool :=
  write_videofile (fst p) (clip_path output_dir video_name p)
    (fst (snd p)) (snd (snd p)).

Definition attempt (output_dir video_name : string)
    (p : nat * (float * float)) : call :=
  WriteVideofile (fst p) (clip_path output_dir video_name p)
    (fst (snd p)) (snd (snd p)) (written output_dir video_name p).

End SplittingNotions.

(** *** Single-colour frames, in binary64 *)

#[export] Instance solid : CV2 := {|
  Frame := Z;
  GrayImage := Z;
  Mask := unit;
  Hist := Z;
  cvtColor_BGR2GRAY := fun level => level;
  calcHist := fun images _ _ _ _ => hd 0%Z images;
  compareHist_CORREL := fun h1 h2 =>
    if (h1 =? h2)%Z then 1%float else (- (1 / 255))%float
|}.

Definition capture (fps frame_count : float) (frames : list Z) : VideoCapture :=
  {| video_path := "input.mp4"; isOpened := true; CAP_PROP_FPS := fps;
     CAP_PROP_FRAME_COUNT := frame_count; stream := frames |}.

(** An environment in which an empty output directory cannot be made, as
    [os.makedirs('')] cannot, and the writer fails on the interval at
    index 2. *)
#[export] Instance env : Env := {|
  video_name_of := fun p => p;
  path_join := fun d f => String.append d (String.append "/" f);
  output_filename_of := fun name i _ _ =>
    String.append name (String.append "_scene_" (String (Ascii.ascii_of_nat (48 + i)) ".mp4"));
  makedirs := fun d =>
    if String.eqb d "" then Some (LibraryError "FileNotFoundError") else None;
  load := fun _ => None;
  write_videofile := fun i _ _ _ => negb (i =? 2)%nat;
  close := fun _ => None;
  dump := fun _ _ => None;
  now_isoformat := "2024-01-01T00:00:00";
  now_strftime := "20240101_000000"
|}.

End F64.

(** ** Further notions for the statements *)

(** The frame counts from [c + 1] to [c + n] at which line 93 lets the
    callback through. *)
Definition ticks_from (c n : nat) : list nat :=
  filter (fun m => (m mod 30 =? 0)%nat) (seq (S c) n).

(** The percentages of line 94 over a scan of [n] frames. *)
Definition progress_values (total_frames : Z) (n : nat) : list Q :=
  map (fun m => of_nat m / inject_Z total_frames * 100) (ticks_from 0 n).

Section Changes.

Context {cv : CV2}.

(** The indices, counted from [i], of the frames of [frames] whose score
    against the frame before exceeds the threshold; [prev] is the frame
    before the first one, if any. *)
Fixpoint changes_from (self : SceneDetector) (prev : option Frame) (i : nat)
    (frames : list Frame) : list nat :=
  match frames with
  | [] => []
  | frame :: rest =>
      match prev with
      | Some p =>
          if gt (calculate_frame_difference p frame) (threshold self)
          then [i] else []
      | None => []
      end ++ changes_from self (Some frame) (S i) rest
  end.

(** The frame indices of a stream at which the score exceeds the threshold. *)
Definition changes (self : SceneDetector) (frames : list Frame) : list nat :=
  changes_from self None 0 frames.

End Changes.

(** The time of the frame at index [i]. *)
Definition time_of (fps : Q) (i : nat) : Q := of_nat i / fps.

(** ** Facts about the Python primitives *)

Lemma gt_true_iff (a b : Q) : gt a b = true <-> b < a.
Proof.
  unfold gt. rewrite negb_true_iff, <- not_true_iff_false, Qle_bool_iff.
  split; intro H; [apply Qnot_le_lt | apply Qlt_not_le]; exact H.
Qed.

Lemma ge_true_iff (a b : Q) : ge a b = true <-> b <= a.
Proof. unfold ge. apply Qle_bool_iff. Qed.

Lemma lt_true_iff (a b : Q) : lt a b = true <-> a < b.
Proof.
  unfold lt. rewrite negb_true_iff, <- not_true_iff_false, Qle_bool_iff.
  split; intro H; [apply Qnot_le_lt | apply Qlt_not_le]; exact H.
Qed.

Lemma truediv_nonzero (a b : Q) : ~ b == 0 -> truediv a b = Ok (a / b).
Proof.
  intro Hb. unfold truediv.
  destruct (Qeq_bool b 0) eqn:E; [|reflexivity].
  apply Qeq_bool_iff in E. contradiction.
Qed.

Lemma truediv_zero (a b : Q) : b == 0 -> truediv a b = Raise ZeroDivisionError.
Proof.
  intro Hb. unfold truediv. apply Qeq_bool_iff in Hb. now rewrite Hb.
Qed.

Lemma truediv_Ok_inv (a b q : Q) : truediv a b = Ok q -> ~ b == 0 /\ q = a / b.
Proof.
  unfold truediv. destruct (Qeq_bool b 0) eqn:E; [discriminate|].
  intro H. injection H as <-. split; [|reflexivity].
  intro Hb. apply Qeq_bool_iff in Hb. congruence.
Qed.

Lemma bind_Ok_inv {A B : Type} (m : result A) (k : A -> result B) (b : B) :
  Py.bind m k = Ok b -> exists a, m = Ok a /\ k a = Ok b.
Proof. destruct m as [a|e]; simpl; [eauto | discriminate]. Qed.

Lemma of_nat_S (n : nat) : of_nat (S n) == of_nat n + 1.
Proof.
  unfold of_nat. rewrite Nat2Z.inj_succ, <- Z.add_1_r, inject_Z_plus. reflexivity.
Qed.

Lemma of_nat_nonneg (n : nat) : 0 <= of_nat n.
Proof.
  unfold of_nat, Qle. simpl. lia.
Qed.

Lemma of_nat_le (n m : nat) : (n <= m)%nat -> of_nat n <= of_nat m.
Proof. intro H. unfold of_nat. rewrite <- Zle_Qle. lia. Qed.

Lemma of_nat_lt (n m : nat) : (n < m)%nat -> of_nat n < of_nat m.
Proof. intro H. unfold of_nat. rewrite <- Zlt_Qlt. lia. Qed.

Lemma div_le_mono (a b fps : Q) : 0 < fps -> a <= b -> a / fps <= b / fps.
Proof.
  intros Hf Hab. unfold Qdiv. apply Qmult_le_compat_r; [exact Hab|].
  apply Qlt_le_weak, Qinv_lt_0_compat, Hf.
Qed.

Lemma div_lt_mono (a b fps : Q) : 0 < fps -> a < b -> a / fps < b / fps.
Proof.
  intros Hf Hab. unfold Qdiv. apply Qmult_lt_compat_r; [|exact Hab].
  apply Qinv_lt_0_compat, Hf.
Qed.

(** ** Lists of consecutive pairs *)

Lemma consecutive_cons (a b : Q) (l : list Q) :
  consecutive (a :: b :: l) = (a, b) :: consecutive (b :: l).
Proof. reflexivity. Qed.

Lemma consecutive_length (l : list Q) :
  List.length (consecutive l) = (List.length l - 1)%nat.
Proof.
  unfold consecutive. rewrite length_combine.
  destruct l as [|a l]; [reflexivity|].
  cbn [tl List.length]. rewrite Nat.sub_1_r. cbn [Nat.pred].
  apply Nat.min_r. lia.
Qed.

Lemma consecutive_snoc (l : list Q) (t : Q) :
  l <> [] -> consecutive (l ++ [t]) = consecutive l ++ [(last l, t)].
Proof.
  induction l as [|a l IH]; [congruence|]. intros _.
  destruct l as [|b l]; [reflexivity|].
  change ((a :: b :: l) ++ [t]) with (a :: b :: (l ++ [t])).
  rewrite !consecutive_cons.
  change (b :: l ++ [t]) with ((b :: l) ++ [t]).
  rewrite IH by congruence. reflexivity.
Qed.

Lemma nth_consecutive (l : list Q) (i : nat) :
  (i < List.length l - 1)%nat ->
  nth_error (consecutive l) i = Some (nth i l 0, nth (i + 1) l 0).
Proof.
  revert i. induction l as [|a l IH]; intros i Hi; [simpl in Hi; lia|].
  destruct l as [|b l]; [simpl in Hi; lia|].
  rewrite consecutive_cons. destruct i as [|i]; [reflexivity|].
  simpl nth_error. rewrite IH by (simpl in *; lia). reflexivity.
Qed.

(** The list comprehension of lines 101-102 pairs consecutive boundaries. *)
Lemma scene_pairs_consecutive (l : list Q) :
  scene_pairs l = consecutive l.
Proof.
  apply nth_error_ext. intro i. unfold scene_pairs.
  rewrite nth_error_map.
  destruct (Nat.lt_ge_cases i (List.length l - 1)) as [Hi|Hi].
  - rewrite nth_consecutive by exact Hi.
    rewrite nth_error_nth' with (d := 0%nat) by (rewrite length_seq; exact Hi).
    rewrite seq_nth by exact Hi. reflexivity.
  - replace (nth_error (seq 0 (List.length l - 1)) i) with (@None nat)
      by (symmetry; apply nth_error_None; rewrite length_seq; exact Hi).
    symmetry. apply nth_error_None. rewrite consecutive_length. exact Hi.
Qed.

Lemma consecutive_contiguous (l : list Q) : contiguous (consecutive l).
Proof.
  intros i a b Ha Hb.
  assert (Hi : (S i < List.length l - 1)%nat).
  { rewrite <- consecutive_length. apply nth_error_Some. congruence. }
  rewrite nth_consecutive in Ha, Hb by lia.
  injection Ha as <-. injection Hb as <-. simpl.
  now rewrite Nat.add_1_r.
Qed.

(** ** The scanning loop *)

Section Loop.

Context {cv : CV2} {W : Type}.

Implicit Types (self : SceneDetector) (st : @locals cv W)
  (cb : option (@callback W)).

Lemma consider_frame_first self fps st frame :
  prev_frame st = None ->
  consider_frame self fps st frame = Ok (scene_changes st).
Proof. intro H. unfold consider_frame. now rewrite H. Qed.

(** What lines 77-87 do to the boundary list when they do not raise. *)
Lemma consider_frame_Ok self fps st prev frame changes :
  prev_frame st = Some prev ->
  consider_frame self fps st frame = Ok changes ->
  let d := calculate_frame_difference prev frame in
  let t := of_nat (frame_count st) / fps in
  (passes self (scene_changes st) d t /\ ~ fps == 0 /\
   changes = scene_changes st ++ [t])
  \/ (~ passes self (scene_changes st) d t /\ changes = scene_changes st).
Proof.
  intros Hprev H d t. unfold consider_frame in H. rewrite Hprev in H.
  fold d in H. unfold passes.
  destruct (gt d (threshold self)) eqn:Hgt.
  - apply bind_Ok_inv in H as (ts & Hdiv & H).
    apply truediv_Ok_inv in Hdiv as [Hfps ->]. fold t in H.
    apply gt_true_iff in Hgt.
    destruct ((List.length (scene_changes st) =? 1)%nat
              || ge (t - last (scene_changes st)) (min_scene_length self)) eqn:Hgate;
      injection H as <-.
    + left. repeat split; try assumption.
      apply orb_true_iff in Hgate as [Hlen|Hge].
      * left. now apply Nat.eqb_eq.
      * right. now apply ge_true_iff.
    + right. split; [|reflexivity]. intros [_ [Hlen|Hge]].
      * apply Nat.eqb_eq in Hlen. rewrite Hlen in Hgate. discriminate.
      * apply ge_true_iff in Hge. rewrite Hge, orb_true_r in Hgate. discriminate.
  - injection H as <-. right. split; [|reflexivity]. intros [Hd _].
    apply gt_true_iff in Hd. congruence.
Qed.

Lemma consider_frame_total self fps st frame :
  ~ fps == 0 -> exists changes, consider_frame self fps st frame = Ok changes.
Proof.
  intro Hfps. unfold consider_frame.
  destruct (prev_frame st) as [prev|]; [|eauto].
  destruct (gt _ _); [|eauto].
  rewrite truediv_nonzero by exact Hfps. simpl.
  destruct (_ || _); eauto.
Qed.

Lemma loop_body_Ok self fps total cb st frame st' :
  loop_body self fps total cb st frame = Ok st' ->
  exists changes w,
    consider_frame self fps st frame = Ok changes /\
    notify_progress cb total (S (frame_count st)) (sink st) = Ok w /\
    st' = {| scene_changes := changes; prev_frame := Some frame;
             frame_count := S (frame_count st); reads := reads st; sink := w |}.
Proof.
  unfold loop_body. intro H.
  apply bind_Ok_inv in H as (changes & Hc & H).
  apply bind_Ok_inv in H as (w & Hw & H).
  injection H as <-. eauto.
Qed.

Lemma notify_progress_total cb total n w :
  total <> 0%Z \/ cb = None -> exists w', notify_progress cb total n w = Ok w'.
Proof.
  intros H. unfold notify_progress. destruct cb as [f|]; [|eauto].
  destruct H as [H|H]; [|discriminate].
  destruct (n mod 30 =? 0)%nat; [|eauto].
  rewrite truediv_nonzero; [simpl; eauto|].
  unfold Qeq. simpl. lia.
Qed.

Lemma iterate_app self fps total cb l1 l2 st :
  iterate self fps total cb (l1 ++ l2) st =
  (st' <- iterate self fps total cb l1 st ;; iterate self fps total cb l2 st').
Proof.
  revert st. induction l1 as [|f l1 IH]; intro st; [reflexivity|].
  simpl. destruct (loop_body _ _ _ _ _ _); simpl; [apply IH | reflexivity].
Qed.

(** The loop counts the frames it has gone through and keeps the last. *)
Lemma iterate_counts self fps total cb l st st' :
  iterate self fps total cb l st = Ok st' ->
  frame_count st' = (frame_count st + List.length l)%nat /\
  reads st' = (reads st + List.length l)%nat.
Proof.
  revert st. induction l as [|f l IH]; intros st H.
  - injection H as <-. simpl. auto.
  - simpl in H. apply bind_Ok_inv in H as (s1 & Hb & H).
    apply loop_body_Ok in Hb as (changes & w & _ & _ & ->).
    apply IH in H as (Hc & Hr). cbn [frame_count reads read_once] in *.
    rewrite Hc, Hr. cbn [List.length]. lia.
Qed.

(** The loop ends with the read that finds the source exhausted. *)
Lemma scan_iterate self fps total cb l st :
  match iterate self fps total cb l st with
  | Ok st' => scan self fps total cb l st = (read_once st', None)
  | Raise e => exists s, scan self fps total cb l st = (s, Some e)
  end.
Proof.
  revert st. induction l as [|f l IH]; intro st; [reflexivity|].
  simpl. destruct (loop_body _ _ _ _ _ _) as [s1|e]; simpl; [apply IH | eauto].
Qed.

Lemma scan_None self fps total cb l st s :
  scan self fps total cb l st = (s, None) ->
  exists st', iterate self fps total cb l st = Ok st' /\ s = read_once st'.
Proof.
  intro H. pose proof (scan_iterate self fps total cb l st) as Hs.
  destruct (iterate _ _ _ _ _ _) as [st'|e].
  - exists st'. split; [reflexivity|congruence].
  - destruct Hs as [s' Hs]. congruence.
Qed.

End Loop.

(** The boundary list does not depend on the callback or on its state. *)
Lemma consider_frame_ext {cv : CV2} {W1 W2 : Type} (self : SceneDetector)
    (fps : Q) (st1 : @locals cv W1) (st2 : @locals cv W2) (frame : Frame) :
  scene_changes st1 = scene_changes st2 ->
  prev_frame st1 = prev_frame st2 ->
  frame_count st1 = frame_count st2 ->
  consider_frame self fps st1 frame = consider_frame self fps st2 frame.
Proof. intros H1 H2 H3. unfold consider_frame. now rewrite H1, H2, H3. Qed.

(** ** The scorer *)

(** C6.  Scorer definition.  [calculate_frame_difference] turns both frames to
    grey, takes of each the histogram with 256 buckets over the range from 0
    to 256 exclusive, correlates the two histograms and returns
    [(1 - c) * 100] for the coefficient [c]; the score is a function of the
    two histograms alone, and it is 0 when [c = 1]. *)
Theorem scorer_definition {cv : CV2} (frame1 frame2 : Frame) :
  let hist1 := calcHist [cvtColor_BGR2GRAY frame1] [0%nat] None [256%nat] [0%Z; 256%Z] in
  let hist2 := calcHist [cvtColor_BGR2GRAY frame2] [0%nat] None [256%nat] [0%Z; 256%Z] in
  let c := compareHist_CORREL hist1 hist2 in
  calculate_frame_difference frame1 frame2 = (1 - c) * 100 /\
  (forall frame1' frame2' : Frame,
      histogram (cvtColor_BGR2GRAY frame1') = hist1 ->
      histogram (cvtColor_BGR2GRAY frame2') = hist2 ->
      calculate_frame_difference frame1' frame2' =
      calculate_frame_difference frame1 frame2) /\
  (c == 1 -> calculate_frame_difference frame1 frame2 == 0).
Proof.
  intros hist1 hist2 c. split; [reflexivity|]. split.
  - intros f1 f2 H1 H2. unfold calculate_frame_difference.
    rewrite H1, H2. reflexivity.
  - intro Hc. change (calculate_frame_difference frame1 frame2) with ((1 - c) * 100).
    clearbody c. lra.
Qed.

(** With a correlation that is 1 on equal histograms, as the library's is,
    frames with the same histogram score 0. *)
Lemma same_histogram_scores_zero {cv : CV2} (frame1 frame2 : Frame) :
  (forall h, compareHist_CORREL h h == 1) ->
  histogram (cvtColor_BGR2GRAY frame1) = histogram (cvtColor_BGR2GRAY frame2) ->
  calculate_frame_difference frame1 frame2 == 0.
Proof.
  intros Hsame Heq. unfold calculate_frame_difference.
  rewrite Heq. pose proof (Hsame (histogram (cvtColor_BGR2GRAY frame2))) as H.
  lra.
Qed.

(** ** How [detect_scenes] ends *)

Section Ends.

Context {cv : CV2} {W : Type}.

Implicit Types (self : SceneDetector) (st : @locals cv W)
  (cb : option (@callback W)) (cap : VideoCapture).

Lemma loop_body_total self fps total cb st frame :
  ~ fps == 0 -> total <> 0%Z \/ cb = None ->
  exists st', loop_body self fps total cb st frame = Ok st'.
Proof.
  intros Hfps Hcb. unfold loop_body.
  destruct (consider_frame_total self fps st frame Hfps) as [c ->].
  destruct (notify_progress_total cb total (S (frame_count st)) (sink st) Hcb)
    as [w' Hw].
  simpl. rewrite Hw. simpl. eauto.
Qed.

Lemma iterate_total self fps total cb l st :
  ~ fps == 0 -> total <> 0%Z \/ cb = None ->
  exists st', iterate self fps total cb l st = Ok st'.
Proof.
  intros Hfps Hcb. revert st. induction l as [|f l IH]; intro st; [simpl; eauto|].
  simpl.
  destruct (loop_body_total self fps total cb (read_once st) f Hfps Hcb) as [s1 ->].
  simpl. apply IH.
Qed.

(** On an opened video with a non-zero frame rate, and a non-zero frame count
    or no callback, the scan reads every frame, finds the source exhausted and
    returns the pairs of the boundaries followed by the duration. *)
Lemma detect_scenes_returns self cap cb w :
  isOpened cap = true -> ~ CAP_PROP_FPS cap == 0 ->
  int (CAP_PROP_FRAME_COUNT cap) <> 0%Z \/ cb = None ->
  exists st,
    iterate self (CAP_PROP_FPS cap) (int (CAP_PROP_FRAME_COUNT cap)) cb
            (stream cap) (initial w) = Ok st /\
    detect_scenes self cap cb w =
    {| detector := {| threshold := threshold self;
                      min_scene_length := min_scene_length self;
                      scene_timestamps :=
                        scene_pairs (scene_changes st ++ [duration_of cap]) |};
       cap_reads := S (List.length (stream cap));
       progress_sink := sink st;
       returned := Ok (scene_pairs (scene_changes st ++ [duration_of cap])) |}.
Proof.
  intros Hopen Hfps Hcb.
  destruct (iterate_total self (CAP_PROP_FPS cap) (int (CAP_PROP_FRAME_COUNT cap))
              cb (stream cap) (initial w) Hfps Hcb) as [st Hit].
  exists st. split; [exact Hit|].
  unfold detect_scenes. rewrite Hopen. cbn [negb].
  rewrite truediv_nonzero by exact Hfps.
  pose proof (scan_iterate self (CAP_PROP_FPS cap) (int (CAP_PROP_FRAME_COUNT cap))
                cb (stream cap) (initial w)) as Hscan.
  rewrite Hit in Hscan. rewrite Hscan.
  apply iterate_counts in Hit as [_ Hreads].
  cbn [read_once scene_changes reads sink]. rewrite Hreads. reflexivity.
Qed.

(** Conversely, a returned list comes from a completed scan. *)
Lemma detect_scenes_Ok self cap cb w ivs :
  returned (detect_scenes self cap cb w) = Ok ivs ->
  isOpened cap = true /\ ~ CAP_PROP_FPS cap == 0 /\
  exists st,
    iterate self (CAP_PROP_FPS cap) (int (CAP_PROP_FRAME_COUNT cap)) cb
            (stream cap) (initial w) = Ok st /\
    ivs = scene_pairs (scene_changes st ++ [duration_of cap]).
Proof.
  unfold detect_scenes. destruct (isOpened cap); cbn [negb]; [|discriminate].
  destruct (truediv _ _) as [duration|e] eqn:Hdiv; [|discriminate].
  apply truediv_Ok_inv in Hdiv as [Hfps ->].
  destruct (scan _ _ _ _ _ _) as [s [e|]] eqn:Hscan; [discriminate|].
  apply scan_None in Hscan as (st & Hit & ->).
  cbn [returned read_once scene_changes]. intro H. injection H as <-.
  split; [reflexivity|]. split; [exact Hfps|]. eauto.
Qed.

End Ends.

(** ** Invariants of the scan *)

Section Invariants.

Context {cv : CV2} {W : Type}.

Implicit Types (self : SceneDetector) (st : @locals cv W)
  (cb : option (@callback W)) (cap : VideoCapture).

Lemma last_snoc (l : list Q) (t : Q) : last (l ++ [t]) = t.
Proof. apply last_last. Qed.

Lemma last_cons (a b : Q) (l : list Q) : last (a :: b :: l) = last (b :: l).
Proof. reflexivity. Qed.

Lemma ordered_initial fps (w : W) : ordered fps (initial w).
Proof.
  unfold ordered, initial, increasing. cbn.
  repeat split; [eauto | constructor | | congruence].
  unfold Qdiv. rewrite Qmult_0_l. apply Qle_refl.
Qed.

Lemma ordered_step self fps total cb st frame st' :
  0 < fps -> ordered fps st ->
  loop_body self fps total cb (read_once st) frame = Ok st' ->
  ordered fps st'.
Proof.
  intros Hfps ([bs Hbs] & Hinc & Hlast & Hfc) Hbody.
  apply loop_body_Ok in Hbody as (changes & w & Hc & _ & ->).
  unfold ordered. cbn [scene_changes prev_frame frame_count read_once Nat.pred] in *.
  assert (Hmono : of_nat (Nat.pred (frame_count st)) / fps
                  <= of_nat (frame_count st) / fps).
  { apply div_le_mono; [exact Hfps|]. apply of_nat_le. lia. }
  destruct (prev_frame st) as [prev|] eqn:Hprev.
  - eapply consider_frame_Ok in Hc; [|exact Hprev].
    cbn [scene_changes frame_count read_once] in Hc.
    destruct Hc as [(_ & _ & ->) | (_ & ->)].
    + assert (Hlt : last (scene_changes st) < of_nat (frame_count st) / fps).
      { eapply Qle_lt_trans; [exact Hlast|].
        apply div_lt_mono; [exact Hfps|]. apply of_nat_lt.
        assert (1 <= frame_count st)%nat by (apply Hfc; congruence). lia. }
      repeat split.
      * exists (bs ++ [of_nat (frame_count st) / fps]). now rewrite Hbs.
      * unfold increasing. rewrite consecutive_snoc by (rewrite Hbs; congruence).
        apply Forall_app. split; [exact Hinc|]. constructor; [exact Hlt|constructor].
      * rewrite last_snoc. apply Qle_refl.
      * lia.
    + repeat split; eauto; [|lia]. eapply Qle_trans; eassumption.
  - rewrite consider_frame_first in Hc by exact Hprev. injection Hc as <-.
    cbn [scene_changes read_once]. repeat split; eauto; [|lia].
    eapply Qle_trans; eassumption.
Qed.

Lemma ordered_iterate self fps total cb l st st' :
  0 < fps -> ordered fps st ->
  iterate self fps total cb l st = Ok st' -> ordered fps st'.
Proof.
  intro Hfps. revert st. induction l as [|f l IH]; intros st Hord H.
  - injection H as <-. exact Hord.
  - simpl in H. apply bind_Ok_inv in H as (s1 & Hb & H).
    eapply IH; [|exact H]. eapply ordered_step; eassumption.
Qed.

Lemma well_spaced_initial self (w : W) : well_spaced self (initial w).
Proof. exists []. split; [reflexivity|]. constructor. Qed.

Lemma well_spaced_step self fps total cb st frame st' :
  well_spaced self st ->
  loop_body self fps total cb (read_once st) frame = Ok st' ->
  well_spaced self st'.
Proof.
  intros (bs & Hbs & Hsp) Hbody.
  apply loop_body_Ok in Hbody as (changes & w & Hc & _ & ->).
  unfold well_spaced. cbn [scene_changes].
  destruct (prev_frame st) as [prev|] eqn:Hprev.
  - eapply consider_frame_Ok in Hc; [|exact Hprev].
    cbn [scene_changes frame_count read_once] in Hc.
    destruct Hc as [((_ & Hgate) & _ & ->) | (_ & ->)]; [|eauto].
    set (t := of_nat (frame_count st) / fps) in *.
    exists (bs ++ [t]). split; [now rewrite Hbs|].
    destruct bs as [|b bs]; [constructor|].
    unfold spaced. rewrite consecutive_snoc by congruence.
    apply Forall_app. split; [exact Hsp|]. constructor; [|constructor].
    cbn [fst snd]. rewrite Hbs in Hgate. destruct Hgate as [Hlen|Hge].
    + simpl in Hlen. lia.
    + rewrite last_cons in Hge. exact Hge.
  - rewrite consider_frame_first in Hc by exact Hprev. injection Hc as <-.
    cbn [scene_changes read_once]. eauto.
Qed.

Lemma well_spaced_iterate self fps total cb l st st' :
  well_spaced self st ->
  iterate self fps total cb l st = Ok st' -> well_spaced self st'.
Proof.
  revert st. induction l as [|f l IH]; intros st Hsp H.
  - injection H as <-. exact Hsp.
  - simpl in H. apply bind_Ok_inv in H as (s1 & Hb & H).
    eapply IH; [|exact H]. eapply well_spaced_step; eassumption.
Qed.

End Invariants.

(** ** The first frame *)

(** The first frame has no predecessor and adds no boundary. *)
Lemma first_frame_adds_nothing {cv : CV2} {W : Type} (self : SceneDetector)
    (fps : Q) (total : Z) (cb : option (@callback W)) (w : W) (frame : Frame)
    (st : @locals cv W) :
  iterate self fps total cb [frame] (initial w) = Ok st ->
  scene_changes st = [0].
Proof.
  simpl. intro H. apply bind_Ok_inv in H as (s & Hb & Heq). injection Heq as ->.
  apply loop_body_Ok in Hb as (c & w' & Hc & _ & ->).
  rewrite consider_frame_first in Hc by reflexivity. now injection Hc as <-.
Qed.

(** ** The partition of the video *)

(** C2, as amended.  Partition invariant.  For a video that opens, with
    [fps > 0], [total_frames > 0] and a frame source that yields no more
    frames than [total_frames], [detect_scenes] returns at least one
    interval, every interval ends after it starts, each ends where the next
    starts, the first starts at 0 and the last ends at
    [total_frames / fps]. *)
Theorem partition_invariant {cv : CV2} {W : Type} (self : SceneDetector)
    (cap : VideoCapture) (cb : option (@callback W)) (w : W) :
  isOpened cap = true ->
  0 < CAP_PROP_FPS cap ->
  (0 < int (CAP_PROP_FRAME_COUNT cap))%Z ->
  (Z.of_nat (List.length (stream cap)) <= int (CAP_PROP_FRAME_COUNT cap))%Z ->
  exists ivs,
    returned (detect_scenes self cap cb w) = Ok ivs /\
    (1 <= List.length ivs)%nat /\
    Forall (fun iv => fst iv < snd iv) ivs /\
    contiguous ivs /\
    (exists e rest, ivs = (0, e) :: rest) /\
    (exists front s,
        ivs = front ++ [(s, inject_Z (int (CAP_PROP_FRAME_COUNT cap))
                            / CAP_PROP_FPS cap)]).
Proof.
  intros Hopen Hfps Htotal Hlen.
  assert (Hfps0 : ~ CAP_PROP_FPS cap == 0) by (intro H; rewrite H in Hfps; discriminate).
  destruct (detect_scenes_returns self cap cb w Hopen Hfps0) as (st & Hit & ->);
    [left; lia|].
  cbn [returned]. eexists. split; [reflexivity|].
  rewrite scene_pairs_consecutive.
  pose proof (ordered_iterate _ _ _ _ _ _ _ Hfps (ordered_initial _ w) Hit)
    as ([bs Hbs] & Hinc & Hlast & _).
  apply iterate_counts in Hit as [Hcount _]. cbn [frame_count initial] in Hcount.
  fold (duration_of cap).
  assert (Hsnoc : consecutive (scene_changes st ++ [duration_of cap]) =
                  consecutive (scene_changes st)
                  ++ [(last (scene_changes st), duration_of cap)]).
  { apply consecutive_snoc. rewrite Hbs. congruence. }
  split; [|split; [|split; [|split]]].
  - rewrite Hsnoc, length_app. simpl. lia.
  - rewrite Hsnoc. apply Forall_app. split; [exact Hinc|].
    constructor; [|constructor]. cbn [fst snd].
    eapply Qle_lt_trans; [exact Hlast|].
    apply div_lt_mono; [exact Hfps|]. unfold of_nat. rewrite <- Zlt_Qlt. lia.
  - apply consecutive_contiguous.
  - rewrite Hbs. destruct bs as [|b bs]; unfold consecutive; simpl; eauto.
  - rewrite Hsnoc. eauto.
Qed.

Lemma partition_invariant_witness :
  exists ivs,
    returned (detect_scenes (init 25 2) (Solid.capture 10 4 [0; 0; 9; 9]%Z) None tt)
    = Ok ivs /\
    (1 <= List.length ivs)%nat /\
    Forall (fun iv => fst iv < snd iv) ivs /\
    contiguous ivs /\
    (exists e rest, ivs = (0, e) :: rest) /\
    (exists front s, ivs = front ++ [(s, inject_Z (int 4) / 10)]).
Proof.
  apply (partition_invariant (init 25 2) (Solid.capture 10 4 [0; 0; 9; 9]%Z) None tt).
  - reflexivity.
  - reflexivity.
  - reflexivity.
  - vm_compute. intro H. discriminate H.
Defined.

(** C2 as stated fails when the stream is longer than the reported frame
    count: here the container reports one frame at 1 fps, three frames are
    read, the third differs, and the second interval ends before it starts. *)
Lemma partition_counterexample :
  let cap := Solid.capture 1 1 [0; 0; 9]%Z in
  0 < CAP_PROP_FPS cap /\
  (0 < int (CAP_PROP_FRAME_COUNT cap))%Z /\
  returned (detect_scenes (init 25 2) cap None tt) = Ok [(0, 2 # 1); (2 # 1, 1 # 1)] /\
  ~ (2 # 1) < (1 # 1).
Proof.
  cbv zeta. repeat split. intro H. discriminate H.
Qed.

(** ** Spacing of the boundaries *)

(** C3.  Minimum spacing with tail exemption.  The intervals [detect_scenes]
    returns pair up a boundary list made of the initial 0, the accepted
    boundaries [bs] and the final [total_frames / fps]: consecutive accepted
    boundaries are at least [min_scene_length] apart, and the final boundary
    is appended whatever its distance to the last accepted one. *)
Theorem minimum_spacing {cv : CV2} {W : Type} (self : SceneDetector)
    (cap : VideoCapture) (cb : option (@callback W)) (w : W)
    (ivs : list (Q * Q)) :
  returned (detect_scenes self cap cb w) = Ok ivs ->
  exists bs,
    ivs = scene_pairs (0 :: bs ++ [inject_Z (int (CAP_PROP_FRAME_COUNT cap))
                                   / CAP_PROP_FPS cap]) /\
    spaced (min_scene_length self) bs.
Proof.
  intro H. apply detect_scenes_Ok in H as (_ & _ & st & Hit & ->).
  apply well_spaced_iterate in Hit as (bs & Hbs & Hsp);
    [|apply well_spaced_initial].
  exists bs. rewrite Hbs. split; [reflexivity | exact Hsp].
Qed.

(** The final boundary 10 is only 1 s after the accepted boundary 9, with a
    minimum scene length of 2 s. *)
Lemma minimum_spacing_witness :
  exists bs,
    [(0, 3 # 1); (3 # 1, 9 # 1); (9 # 1, 10 # 1)] =
    scene_pairs (0 :: bs ++ [inject_Z (int 10) / 1]) /\
    spaced 2 bs.
Proof.
  exact (minimum_spacing (init 25 2)
           (Solid.capture 1 10 [0; 0; 0; 9; 9; 9; 9; 9; 9; 0]%Z) None tt
           [(0, 3 # 1); (3 # 1, 9 # 1); (9 # 1, 10 # 1)] eq_refl).
Defined.

(** ** Monotonicity in the configuration *)

Section Monotone.

Context {cv : CV2} {W1 W2 : Type}.

Variables (lo hi : SceneDetector) (fps : Q) (total : Z).
Variables (cb1 : option (@callback W1)) (cb2 : option (@callback W2)).

Hypothesis fps_pos : 0 < fps.
Hypothesis threshold_le : threshold lo <= threshold hi.
Hypothesis min_scene_length_le : min_scene_length lo <= min_scene_length hi.

Lemma ahead_initial (w1 : W1) (w2 : W2) : ahead (initial w1) (initial w2).
Proof. unfold ahead. cbn. repeat split; auto. intros _. apply Qle_refl. Qed.

Lemma ahead_step (s1 s1' : @locals cv W1) (s2 s2' : @locals cv W2) (frame : Frame) :
  ordered fps s1 -> ahead s1 s2 ->
  loop_body lo fps total cb1 (read_once s1) frame = Ok s1' ->
  loop_body hi fps total cb2 (read_once s2) frame = Ok s2' ->
  ahead s1' s2'.
Proof.
  intros (_ & _ & Hlast & Hfc) (Hprev & Hcount & Hlen & Hlasts) H1 H2.
  apply loop_body_Ok in H1 as (c1 & w1 & Hc1 & _ & ->).
  apply loop_body_Ok in H2 as (c2 & w2 & Hc2 & _ & ->).
  unfold ahead. cbn [scene_changes prev_frame frame_count read_once] in *.
  split; [reflexivity|]. split; [congruence|].
  destruct (prev_frame s1) as [prev|] eqn:Hp1.
  - symmetry in Hprev.
    eapply consider_frame_Ok in Hc1; [|exact Hp1].
    eapply consider_frame_Ok in Hc2; [|exact Hprev].
    cbn [scene_changes frame_count read_once] in Hc1, Hc2.
    rewrite <- Hcount in Hc2.
    set (d := calculate_frame_difference prev frame) in *.
    set (t := of_nat (frame_count s1) / fps) in *.
    assert (Ht : last (scene_changes s1) <= t).
    { eapply Qle_trans; [exact Hlast|]. apply div_le_mono; [exact fps_pos|].
      apply of_nat_le. lia. }
    destruct Hc1 as [(_ & _ & ->) | (Hno1 & ->)];
      destruct Hc2 as [(Hacc2 & _ & ->) | (_ & ->)];
      rewrite ?length_app, ?last_snoc; cbn [List.length].
    + split; [lia|]. intros _. apply Qle_refl.
    + split; [lia|]. intro Heq. lia.
    + assert (Hneq : List.length (scene_changes s2) <> List.length (scene_changes s1)).
      { intro Heq. apply Hno1. destruct Hacc2 as [Hd Hgate]. split.
        - eapply Qle_lt_trans; [exact threshold_le | exact Hd].
        - destruct Hgate as [Hone|Hge]; [left; congruence|right].
          specialize (Hlasts Heq). lra. }
      split; [lia|]. intros _. exact Ht.
    + split; assumption.
  - rewrite consider_frame_first in Hc1 by exact Hp1.
    rewrite consider_frame_first in Hc2 by (symmetry; exact Hprev).
    injection Hc1 as <-. injection Hc2 as <-.
    cbn [scene_changes read_once]. split; assumption.
Qed.

Lemma ahead_iterate (l : list Frame) (s1 s1' : @locals cv W1)
    (s2 s2' : @locals cv W2) :
  ordered fps s1 -> ahead s1 s2 ->
  iterate lo fps total cb1 l s1 = Ok s1' ->
  iterate hi fps total cb2 l s2 = Ok s2' ->
  ahead s1' s2'.
Proof.
  revert s1 s2. induction l as [|f l IH]; intros s1 s2 Hord Hah H1 H2.
  - injection H1 as <-. injection H2 as <-. exact Hah.
  - simpl in H1, H2.
    apply bind_Ok_inv in H1 as (m1 & Hb1 & H1).
    apply bind_Ok_inv in H2 as (m2 & Hb2 & H2).
    eapply IH; [| |exact H1|exact H2].
    + eapply ordered_step; eassumption.
    + eapply ahead_step; eassumption.
Qed.

End Monotone.

Lemma scene_pairs_length (l : list Q) (t : Q) :
  List.length (scene_pairs (l ++ [t])) = List.length l.
Proof.
  rewrite scene_pairs_consecutive, consecutive_length, length_app. simpl. lia.
Qed.

(** C4.  Monotonicity in the configuration.  On one video with [fps > 0], a
    detector whose threshold and minimum scene length are no lower than those
    of another returns no more intervals, hence detects no more boundaries;
    this covers raising the threshold alone and raising the minimum scene
    length alone. *)
Theorem monotone_in_configuration {cv : CV2} {W1 W2 : Type}
    (lo hi : SceneDetector) (cap : VideoCapture)
    (cb1 : option (@callback W1)) (cb2 : option (@callback W2))
    (w1 : W1) (w2 : W2) (ivs_lo ivs_hi : list (Q * Q)) :
  0 < CAP_PROP_FPS cap ->
  threshold lo <= threshold hi ->
  min_scene_length lo <= min_scene_length hi ->
  returned (detect_scenes lo cap cb1 w1) = Ok ivs_lo ->
  returned (detect_scenes hi cap cb2 w2) = Ok ivs_hi ->
  (List.length ivs_hi <= List.length ivs_lo)%nat.
Proof.
  intros Hfps Hth Hmsl H1 H2.
  apply detect_scenes_Ok in H1 as (_ & _ & s1 & Hit1 & ->).
  apply detect_scenes_Ok in H2 as (_ & _ & s2 & Hit2 & ->).
  rewrite !scene_pairs_length.
  pose proof (ahead_iterate lo hi _ _ cb1 cb2 Hfps Hth Hmsl _ _ _ _ _
                (ordered_initial _ w1) (ahead_initial w1 w2) Hit1 Hit2)
    as (_ & _ & Hlen & _).
  exact Hlen.
Qed.

(** Raising the threshold from 25 to 120 loses the boundary at 3 s; the
    minimum scene length goes from 2 s to 3 s. *)
Lemma monotone_in_configuration_witness :
  Nat.le (List.length [(0, 10 # 1)])
         (List.length [(0, 3 # 1); (3 # 1, 10 # 1)]).
Proof.
  apply (monotone_in_configuration (init 25 2) (init 120 3)
           (Solid.capture 1 10 [0; 0; 0; 9; 9; 9; 9; 9; 9; 9]%Z)
           None None tt tt).
  - reflexivity.
  - unfold Qle. simpl. lia.
  - unfold Qle. simpl. lia.
  - reflexivity.
  - reflexivity.
Defined.

(** ** The progress callback *)

Section Progress.

Context {cv : CV2} {W1 W2 : Type}.

Lemma same_scan_step (self : SceneDetector) (fps : Q) (total : Z)
    (cb : option (@callback W1)) (s1 s1' : @locals cv W1) (s2 : @locals cv W2)
    (frame : Frame) :
  same_scan s1 s2 ->
  loop_body self fps total cb (read_once s1) frame = Ok s1' ->
  exists s2', loop_body self fps total None (read_once s2) frame = Ok s2' /\
              same_scan s1' s2'.
Proof.
  intros (Hsc & Hprev & Hcount & Hreads) Hbody.
  apply loop_body_Ok in Hbody as (c & w & Hc & _ & ->).
  unfold loop_body.
  rewrite (consider_frame_ext self fps (read_once s2) (read_once s1)), Hc
    by (symmetry; assumption).
  simpl. eexists. split; [reflexivity|].
  unfold same_scan. cbn. repeat split; congruence.
Qed.

Lemma same_scan_iterate (self : SceneDetector) (fps : Q) (total : Z)
    (cb : option (@callback W1)) (l : list Frame)
    (s1 s1' : @locals cv W1) (s2 : @locals cv W2) :
  same_scan s1 s2 ->
  iterate self fps total cb l s1 = Ok s1' ->
  exists s2', iterate self fps total None l s2 = Ok s2' /\ same_scan s1' s2'.
Proof.
  revert s1 s2. induction l as [|f l IH]; intros s1 s2 Hsame H.
  - injection H as <-. exists s2. split; [reflexivity | exact Hsame].
  - simpl in H. apply bind_Ok_inv in H as (m1 & Hb & H).
    destruct (same_scan_step _ _ _ _ _ _ s2 _ Hsame Hb) as (m2 & Hb2 & Hsame').
    destruct (IH _ _ Hsame' H) as (s2' & Hit & Hres).
    exists s2'. split; [|exact Hres]. simpl. rewrite Hb2. exact Hit.
Qed.

(** When the reported frame count is not zero, [detect_scenes] returns the
    same list, leaves the detector in the same state and reads as many frames
    with a callback as without one. *)
Lemma progress_noninterference (self : SceneDetector) (cap : VideoCapture)
    (cb : option (@callback W1)) (w1 : W1) (w2 : W2) :
  int (CAP_PROP_FRAME_COUNT cap) <> 0%Z ->
  returned (detect_scenes self cap cb w1) = returned (detect_scenes self cap None w2) /\
  detector (detect_scenes self cap cb w1) = detector (detect_scenes self cap None w2) /\
  cap_reads (detect_scenes self cap cb w1) = cap_reads (detect_scenes self cap None w2).
Proof.
  intro Htotal. unfold detect_scenes.
  destruct (isOpened cap); cbn [negb]; [|auto].
  destruct (truediv _ _) as [duration|e] eqn:Hdiv; [|auto].
  apply truediv_Ok_inv in Hdiv as [Hfps _].
  destruct (iterate_total self (CAP_PROP_FPS cap) (int (CAP_PROP_FRAME_COUNT cap))
              cb (stream cap) (initial w1) Hfps (or_introl Htotal)) as [s1 H1].
  assert (Hsame : same_scan (initial w1) (initial w2))
    by (unfold same_scan; cbn; auto).
  destruct (same_scan_iterate _ _ _ _ _ _ _ _ Hsame H1)
    as (s2 & H2 & Hsc & _ & _ & Hr).
  pose proof (scan_iterate self (CAP_PROP_FPS cap) (int (CAP_PROP_FRAME_COUNT cap))
                cb (stream cap) (initial w1)) as Hs1.
  pose proof (scan_iterate self (CAP_PROP_FPS cap) (int (CAP_PROP_FRAME_COUNT cap))
                (@None (@callback W2)) (stream cap) (initial w2)) as Hs2.
  rewrite H1 in Hs1. rewrite H2 in Hs2. rewrite Hs1, Hs2.
  cbn [returned detector cap_reads read_once scene_changes reads].
  rewrite Hsc, Hr. auto.
Qed.

End Progress.

(** C5.  Determinism and progress noninterference fail on the code at a video
    whose container reports no frames while 30 frames are read: without a
    callback [detect_scenes] returns one interval, with a callback the
    percentage of line 94 divides by zero at the 30th frame. *)
Theorem progress_callback_divergence :
  let cap := Solid.capture 30 0 (repeat 0%Z 30) in
  returned (detect_scenes init_default cap None (@nil Q)) = Ok [(0, 0 # 30)] /\
  returned (detect_scenes init_default cap (Some Solid.record_progress) [])
  = Raise ZeroDivisionError.
Proof. cbv zeta. split; vm_compute; reflexivity. Qed.

(** ** Degenerate metadata and configuration *)

Lemma scan_reads {cv : CV2} {W : Type} (self : SceneDetector) (fps : Q)
    (total : Z) (cb : option (@callback W)) (l : list Frame) (st : @locals cv W) :
  (S (reads st) <= reads (fst (scan self fps total cb l st)))%nat.
Proof.
  revert st. induction l as [|f l IH]; intro st; [simpl; lia|].
  simpl. destruct (loop_body _ _ _ _ _ _) as [st'|e] eqn:Hb; [|simpl; lia].
  apply loop_body_Ok in Hb as (c & w & _ & _ & ->).
  etransitivity; [|apply IH]. simpl. lia.
Qed.

(** C7, as amended.  Degenerate metadata on a video that opens.  With
    [fps = 0] the duration of line 62 raises [ZeroDivisionError] before any
    frame is read.  With [total_frames = 0] and [fps <> 0] nothing fails
    before the scan: frames are read, and without a progress callback every
    frame is read and the interval list is returned. *)
Theorem degenerate_metadata {cv : CV2} {W : Type} (self : SceneDetector)
    (cap : VideoCapture) (cb : option (@callback W)) (w : W) :
  isOpened cap = true ->
  (CAP_PROP_FPS cap == 0 ->
   returned (detect_scenes self cap cb w) = Raise ZeroDivisionError /\
   cap_reads (detect_scenes self cap cb w) = 0%nat) /\
  (~ CAP_PROP_FPS cap == 0 -> int (CAP_PROP_FRAME_COUNT cap) = 0%Z ->
   (1 <= cap_reads (detect_scenes self cap cb w))%nat /\
   (cb = None ->
    cap_reads (detect_scenes self cap cb w) = S (List.length (stream cap)) /\
    exists ivs, returned (detect_scenes self cap cb w) = Ok ivs)).
Proof.
  intro Hopen. split.
  - intro Hfps. unfold detect_scenes. rewrite Hopen. cbn [negb].
    rewrite truediv_zero by exact Hfps. auto.
  - intros Hfps Htotal. split.
    + unfold detect_scenes. rewrite Hopen. cbn [negb].
      rewrite truediv_nonzero by exact Hfps.
      pose proof (scan_reads self (CAP_PROP_FPS cap) (int (CAP_PROP_FRAME_COUNT cap))
                    cb (stream cap) (initial w)) as Hr.
      destruct (scan _ _ _ _ _ _) as [s [e|]]; cbn [cap_reads fst] in *; lia.
    + intro Hcb.
      destruct (detect_scenes_returns self cap cb w Hopen Hfps (or_intror Hcb))
        as (st & _ & ->).
      cbn [cap_reads returned]. eauto.
Qed.

Lemma degenerate_metadata_witness :
  let cap := Solid.capture 30 0 [0; 0; 9]%Z in
  (1 <= cap_reads (detect_scenes init_default cap None tt))%nat /\
  (@None (@callback unit) = None ->
   cap_reads (detect_scenes init_default cap None tt) = S (List.length (stream cap)) /\
   exists ivs, returned (detect_scenes init_default cap None tt) = Ok ivs).
Proof.
  refine (proj2 (degenerate_metadata init_default (Solid.capture 30 0 [0; 0; 9]%Z)
                   None tt eq_refl) _ eq_refl).
  intro H. discriminate H.
Defined.

(** C7 as stated fails twice.  A video reporting no frames at 30 fps is
    scanned to its end and yields intervals; and with [fps = 0] what is raised
    is the [ZeroDivisionError] of the division itself. *)
Lemma degenerate_metadata_counterexample :
  let no_frames := Solid.capture 30 0 [0; 0; 9]%Z in
  let no_fps := Solid.capture 0 3 [0; 0; 9]%Z in
  int (CAP_PROP_FRAME_COUNT no_frames) = 0%Z /\
  returned (detect_scenes init_default no_frames None tt)
  = Ok [(0, 2 # 30); (2 # 30, 0 # 30)] /\
  cap_reads (detect_scenes init_default no_frames None tt) = 4%nat /\
  CAP_PROP_FPS no_fps == 0 /\
  returned (detect_scenes init_default no_fps None tt) = Raise ZeroDivisionError.
Proof. cbv zeta. repeat split. Qed.

(** C8, as amended.  No configuration is rejected: the constructor stores any
    threshold and minimum scene length, and on a video that opens with a
    non-zero frame rate (and a non-zero frame count or no callback)
    [detect_scenes] reads every frame under them and returns the interval
    list. *)
Theorem configuration_not_validated {cv : CV2} {W : Type}
    (threshold_arg min_scene_length_arg : Q)
    (cap : VideoCapture) (cb : option (@callback W)) (w : W) :
  isOpened cap = true ->
  ~ CAP_PROP_FPS cap == 0 ->
  int (CAP_PROP_FRAME_COUNT cap) <> 0%Z \/ cb = None ->
  let self := init threshold_arg min_scene_length_arg in
  threshold self = threshold_arg /\
  min_scene_length self = min_scene_length_arg /\
  cap_reads (detect_scenes self cap cb w) = S (List.length (stream cap)) /\
  exists ivs, returned (detect_scenes self cap cb w) = Ok ivs.
Proof.
  intros Hopen Hfps Hcb self.
  destruct (detect_scenes_returns self cap cb w Hopen Hfps Hcb) as (st & _ & ->).
  cbn [cap_reads returned]. eauto.
Qed.

Lemma configuration_not_validated_witness :
  let cap := Solid.capture 10 4 [0; 0; 9; 9]%Z in
  let self := init (-5) (-1) in
  threshold self = -5 /\
  min_scene_length self = -1 /\
  cap_reads (detect_scenes self cap (Some Solid.record_progress) []) = S (List.length (stream cap)) /\
  exists ivs, returned (detect_scenes self cap (Some Solid.record_progress) []) = Ok ivs.
Proof.
  apply (configuration_not_validated (-5) (-1) (Solid.capture 10 4 [0; 0; 9; 9]%Z)
           (Some Solid.record_progress) []).
  - reflexivity.
  - intro H. discriminate H.
  - left. intro H. discriminate H.
Defined.

(** C8 as stated fails: a detector with threshold -5 and minimum scene length
    -1 is built and scans the four frames, every one after the first
    becoming a boundary. *)
Lemma configuration_counterexample :
  let cap := Solid.capture 10 4 [0; 0; 9; 9]%Z in
  let self := init (-5) (-1) in
  threshold self <= 0 /\ min_scene_length self < 0 /\
  cap_reads (detect_scenes self cap None tt) = 5%nat /\
  returned (detect_scenes self cap None tt)
  = Ok [(0, 1 # 10); (1 # 10, 2 # 10); (2 # 10, 3 # 10); (3 # 10, 4 # 10)].
Proof. cbv zeta. repeat split. intro H. discriminate H. Qed.

(** ** The splitter *)

Section Splitter.

Context {env : Env}.

Lemma enumerate_from_snd {A : Type} (k : nat) (l : list A) :
  map snd (enumerate_from k l) = l.
Proof.
  revert k. induction l as [|a l IH]; intro k; [reflexivity|].
  simpl. now rewrite IH.
Qed.

Lemma enumerate_from_fst {A : Type} (k : nat) (l : list A) :
  map fst (enumerate_from k l) = seq k (List.length l).
Proof.
  revert k. induction l as [|a l IH]; intro k; [reflexivity|].
  simpl. now rewrite IH.
Qed.

Lemma enumerate_from_In {A : Type} (k i : nat) (x : A) (l : list A) :
  In (i, x) (enumerate_from k l) ->
  (k <= i)%nat /\ nth_error l (i - k) = Some x.
Proof.
  revert k. induction l as [|a l IH]; intros k H; [contradiction|].
  destruct H as [H|H].
  - injection H as -> ->. rewrite Nat.sub_diag. split; [lia|reflexivity].
  - apply IH in H as [Hle Hnth]. split; [lia|].
    replace (i - k)%nat with (S (i - S k)) by lia. exact Hnth.
Qed.

(** The loop of lines 140-174 in closed form: a call for every interval that
    reaches the floor, a clip for every call that succeeds. *)
Lemma split_loop_spec (output_dir video_name : string)
    (todo : list (nat * (Q * Q))) (created : list string) (calls : list call) :
  split_loop output_dir video_name todo created calls =
  (created ++ map (clip_path output_dir video_name)
                  (filter (written output_dir video_name) (filter long_enough todo)),
   calls ++ map (attempt output_dir video_name) (filter long_enough todo)).
Proof.
  revert created calls.
  induction todo as [|[i [s e]] todo IH]; intros created calls.
  - simpl. now rewrite !app_nil_r.
  - cbn [split_loop filter]. cbv zeta.
    change (long_enough (i, (s, e))) with (negb (lt (e - s) (1 # 2))).
    destruct (lt (e - s) (1 # 2)); cbn [negb]; [apply IH|].
    cbn [filter].
    change (written output_dir video_name (i, (s, e)))
      with (write_videofile i
              (path_join output_dir (output_filename_of video_name (i + 1) s e)) s e).
    destruct (write_videofile _ _ _ _) eqn:Hok; rewrite IH; cbn [map];
      unfold attempt, written, clip_path; cbn [fst snd];
      rewrite ?Hok, <- ?app_assoc; reflexivity.
Qed.

Lemma report_scenes_intervals (ts : list (Q * Q)) :
  map (fun sc => (Report.start_time sc, Report.end_time sc)) (report_scenes ts) = ts.
Proof.
  unfold report_scenes, enumerate. rewrite map_map.
  rewrite <- (enumerate_from_snd 0 ts) at 2.
  apply map_ext. intros [i [s e]]. reflexivity.
Qed.

Lemma report_scenes_numbers (ts : list (Q * Q)) :
  map Report.scene_number (report_scenes ts) = seq 1 (List.length ts).
Proof.
  unfold report_scenes, enumerate. rewrite map_map.
  rewrite <- seq_shift, <- (enumerate_from_fst 0 ts), map_map.
  apply map_ext. intros [i [s e]]. simpl. lia.
Qed.

End Splitter.

(** C10.  With no timestamps passed, or an empty list, and none stored in the
    detector, [split_video_into_scenes] raises before any call on the file
    system or on moviepy: no directory, no clip, no report. *)
Theorem split_without_timestamps {env : Env} (self : SceneDetector)
    (video_path output_dir : string) (timestamps_arg : option (list (Q * Q))) :
  scene_timestamps self = [] ->
  timestamps_arg = None \/ timestamps_arg = Some [] ->
  split_video_into_scenes self video_path output_dir timestamps_arg =
  ([], Raise (Exception "No scene timestamps available. Run detect_scenes() first.")).
Proof.
  intros Hstored [-> | ->]; unfold split_video_into_scenes.
  - now rewrite Hstored.
  - reflexivity.
Qed.

Lemma split_without_timestamps_witness :
  split_video_into_scenes (env := Solid.env) init_default "v" "out" None =
  ([], Raise (Exception "No scene timestamps available. Run detect_scenes() first.")).
Proof.
  apply (split_without_timestamps (env := Solid.env) init_default "v" "out" None).
  - reflexivity.
  - left. reflexivity.
Defined.

(** ** The scenarios of the specification, on single-colour frames *)

(** Scenario A: 10 s at 10 fps without any change is one interval. *)
Example scenario_A :
  returned (detect_scenes (init 25 2) (Solid.capture 10 100 (repeat 7%Z 100)) None tt)
  = Ok [(0, 100 # 10)].
Proof. vm_compute. reflexivity. Qed.

(** Scenario B: one change at frame 50 splits the video at 5 s. *)
Example scenario_B :
  returned (detect_scenes (init 25 2)
              (Solid.capture 10 100 (repeat 0%Z 50 ++ repeat 200%Z 50)) None tt)
  = Ok [(0, 50 # 10); (50 # 10, 100 # 10)].
Proof. vm_compute. reflexivity. Qed.

(** Scenario C: of two changes 1 s apart only the first is a boundary. *)
Example scenario_C :
  returned (detect_scenes (init 25 2)
              (Solid.capture 10 100 (repeat 0%Z 50 ++ repeat 200%Z 10 ++ repeat 0%Z 40))
              None tt)
  = Ok [(0, 50 # 10); (50 # 10, 100 # 10)].
Proof. vm_compute. reflexivity. Qed.

(** The first change is accepted however early it comes: at frame 1 the only
    boundary so far is the initial 0, 0.1 s before. *)
Example first_change_is_accepted :
  returned (detect_scenes (init 25 2)
              (Solid.capture 10 100 (0%Z :: repeat 200%Z 99)) None tt)
  = Ok [(0, 1 # 10); (1 # 10, 100 # 10)].
Proof. vm_compute. reflexivity. Qed.

(** With a callback the percentages come every 30 frames, and the intervals
    are those of scenario B. *)
Example progress_every_30_frames :
  let o := detect_scenes (init 25 2)
             (Solid.capture 10 100 (repeat 0%Z 50 ++ repeat 200%Z 50))
             (Some Solid.record_progress) [] in
  map Qred (progress_sink o) = [30; 60; 90] /\
  returned o = Ok [(0, 50 # 10); (50 # 10, 100 # 10)].
Proof. vm_compute. split; reflexivity. Qed.

(** ** Where the boundaries come from *)

Section Added.

Context {cv : CV2} {W : Type}.

Implicit Types (self : SceneDetector) (st : @locals cv W)
  (cb : option (@callback W)) (cap : VideoCapture).

Lemma changes_from_range self (o : option Frame) (c i : nat) (l : list Frame) :
  In i (changes_from self o c l) -> (c <= i < c + List.length l)%nat.
Proof.
  revert o c. induction l as [|f l IH]; intros o c H; [contradiction|].
  cbn [changes_from] in H. apply in_app_or in H as [H|H].
  - destruct o as [p|]; [|contradiction].
    destruct (gt _ _); [|contradiction].
    destruct H as [<-|[]]. simpl. lia.
  - apply IH in H. simpl. lia.
Qed.

Lemma changes_from_length self (o : option Frame) (c : nat) (l : list Frame) :
  (List.length (changes_from self o c l)
   <= List.length l - match o with Some _ => 0 | None => 1 end)%nat.
Proof.
  revert o c. induction l as [|f l IH]; intros o c; [simpl; lia|].
  cbn [changes_from]. rewrite length_app.
  specialize (IH (Some f) (S c)). cbn beta iota in IH. cbn [List.length].
  destruct o as [p|]; [destruct (gt _ _)|]; simpl; lia.
Qed.

Lemma sorted_lt_NoDup (l : list nat) : StronglySorted Nat.lt l -> NoDup l.
Proof.
  induction 1 as [|a l Hs IH Hall]; constructor; [|exact IH].
  intro Hin. rewrite Forall_forall in Hall. apply Hall in Hin.
  unfold Nat.lt in Hin. lia.
Qed.

(** The loop only ever appends, and what it appends are times of frames whose
    score exceeded the threshold, in the order of the frames. *)
Lemma iterate_added self fps total cb (l : list Frame) st st' :
  iterate self fps total cb l st = Ok st' ->
  exists added,
    scene_changes st' = scene_changes st ++ map (time_of fps) added /\
    StronglySorted Nat.lt added /\
    Forall (fun i => In i (changes_from self (prev_frame st) (frame_count st) l))
           added.
Proof.
  revert st. induction l as [|f l IH]; intros st H.
  - injection H as <-. exists []. rewrite app_nil_r.
    repeat split; constructor.
  - simpl in H. apply bind_Ok_inv in H as (s1 & Hb & H).
    apply loop_body_Ok in Hb as (c & w & Hc & _ & ->).
    apply IH in H as (added & Hsc & Hsorted & Hin).
    cbn [scene_changes prev_frame frame_count read_once] in *.
    assert (Hbig : Forall (fun i => (S (frame_count st) <= i)%nat) added).
    { eapply Forall_impl; [|exact Hin]. intros i Hi.
      apply changes_from_range in Hi. lia. }
    cbn [changes_from].
    destruct (prev_frame st) as [p|] eqn:Hprev.
    + eapply consider_frame_Ok in Hc; [|exact Hprev].
      cbn [scene_changes frame_count read_once] in Hc.
      destruct Hc as [([Hgt _] & _ & ->) | (_ & ->)].
      * apply gt_true_iff in Hgt. rewrite Hgt.
        exists (frame_count st :: added). split; [|split].
        -- rewrite Hsc, <- app_assoc. reflexivity.
        -- constructor; [exact Hsorted|].
           eapply Forall_impl; [|exact Hbig]. intros i Hi. cbv beta in Hi. unfold Nat.lt. lia.
        -- constructor; [left; reflexivity|].
           eapply Forall_impl; [|exact Hin]. intros i Hi. right. exact Hi.
      * exists added. split; [exact Hsc|]. split; [exact Hsorted|].
        eapply Forall_impl; [|exact Hin]. intros i Hi.
        apply in_or_app. right. exact Hi.
    + rewrite consider_frame_first in Hc by exact Hprev. injection Hc as <-.
      exists added. cbn [scene_changes read_once]. auto.
Qed.

End Added.

(** X1.  Shape and size of the result.  Whenever [detect_scenes] returns, the
    list is not empty, the intervals touch, the first starts at 0, the last
    ends at [total_frames / fps], and there are no more intervals than frames
    read (one interval for fewer than two frames) and at most one more than
    frames whose score exceeded the threshold. *)
Theorem result_shape {cv : CV2} {W : Type} (self : SceneDetector)
    (cap : VideoCapture) (cb : option (@callback W)) (w : W)
    (ivs : list (Q * Q)) :
  returned (detect_scenes self cap cb w) = Ok ivs ->
  ivs <> [] /\
  contiguous ivs /\
  (exists e rest, ivs = (0, e) :: rest) /\
  (exists front s, ivs = front ++ [(s, duration_of cap)]) /\
  (List.length ivs <= Nat.max 1 (List.length (stream cap)))%nat /\
  (List.length ivs <= S (List.length (changes self (stream cap))))%nat.
Proof.
  intro H. apply detect_scenes_Ok in H as (_ & _ & st & Hit & ->).
  apply iterate_added in Hit as (added & Hsc & Hsorted & Hin).
  cbn [scene_changes prev_frame frame_count initial app] in Hsc, Hin.
  fold (changes self (stream cap)) in Hin.
  assert (Hlen : (List.length added <= List.length (changes self (stream cap)))%nat).
  { apply NoDup_incl_length; [apply sorted_lt_NoDup, Hsorted|].
    intros i Hi. rewrite Forall_forall in Hin. apply Hin, Hi. }
  pose proof (changes_from_length self None 0 (stream cap)) as Hmax.
  cbn beta iota in Hmax. fold (changes self (stream cap)) in Hmax.
  rewrite scene_pairs_consecutive, Hsc.
  assert (Hsnoc : consecutive ((0 :: map (time_of (CAP_PROP_FPS cap)) added)
                               ++ [duration_of cap]) =
                  consecutive (0 :: map (time_of (CAP_PROP_FPS cap)) added)
                  ++ [(last (0 :: map (time_of (CAP_PROP_FPS cap)) added),
                       duration_of cap)])
    by (apply consecutive_snoc; congruence).
  split; [|split; [|split; [|split; [|split]]]].
  - rewrite Hsnoc. intro Habs. apply app_eq_nil in Habs as [_ Habs]. discriminate.
  - apply consecutive_contiguous.
  - destruct added as [|i added]; unfold consecutive; simpl; eauto.
  - rewrite Hsnoc. eauto.
  - rewrite consecutive_length, length_app. cbn [List.length].
    rewrite length_map. lia.
  - rewrite consecutive_length, length_app. cbn [List.length].
    rewrite length_map. lia.
Qed.

Lemma result_shape_witness :
  let cap := Solid.capture 10 4 [0; 0; 9; 9]%Z in
  let ivs := [(0, 2 # 10); (2 # 10, 4 # 10)] in
  ivs <> [] /\
  contiguous ivs /\
  (exists e rest, ivs = (0, e) :: rest) /\
  (exists front s, ivs = front ++ [(s, duration_of cap)]) /\
  (List.length ivs <= Nat.max 1 (List.length (stream cap)))%nat /\
  (List.length ivs <= S (List.length (changes (init 25 2) (stream cap))))%nat.
Proof.
  exact (result_shape (init 25 2) (Solid.capture 10 4 [0; 0; 9; 9]%Z) None tt
           [(0, 2 # 10); (2 # 10, 4 # 10)] eq_refl).
Defined.

(** X2.  Boundaries sit on frames that changed.  Whenever [detect_scenes]
    returns, the boundaries between the initial 0 and the final duration are
    the times [i / fps] of frames at increasing indices [i], each at least 1,
    below the number of frames read, and with a score above the threshold
    against the frame before. *)
Theorem boundaries_on_changes {cv : CV2} {W : Type} (self : SceneDetector)
    (cap : VideoCapture) (cb : option (@callback W)) (w : W)
    (ivs : list (Q * Q)) :
  returned (detect_scenes self cap cb w) = Ok ivs ->
  exists idxs,
    ivs = scene_pairs (0 :: map (fun i => of_nat i / CAP_PROP_FPS cap) idxs
                         ++ [duration_of cap]) /\
    StronglySorted Nat.lt idxs /\
    Forall (fun i => (1 <= i < List.length (stream cap))%nat /\
                     In i (changes self (stream cap))) idxs.
Proof.
  intro H. apply detect_scenes_Ok in H as (_ & _ & st & Hit & ->).
  apply iterate_added in Hit as (added & Hsc & Hsorted & Hin).
  cbn [scene_changes prev_frame frame_count initial app] in Hsc, Hin.
  exists added. rewrite Hsc. split; [reflexivity|]. split; [exact Hsorted|].
  eapply Forall_impl; [|exact Hin]. intros i Hi. split; [|exact Hi].
  pose proof (changes_from_range _ _ _ _ _ Hi) as Hr.
  destruct (stream cap) as [|f l]; [contradiction|].
  cbn [changes_from app] in Hi. apply changes_from_range in Hi.
  simpl in *. lia.
Qed.

Lemma boundaries_on_changes_witness :
  let cap := Solid.capture 1 10 [0; 0; 0; 9; 9; 9; 9; 9; 9; 0]%Z in
  exists idxs,
    [(0, 3 # 1); (3 # 1, 9 # 1); (9 # 1, 10 # 1)] =
    scene_pairs (0 :: map (fun i => of_nat i / CAP_PROP_FPS cap) idxs
                   ++ [duration_of cap]) /\
    StronglySorted Nat.lt idxs /\
    Forall (fun i => (1 <= i < List.length (stream cap))%nat /\
                     In i (changes (init 25 2) (stream cap))) idxs.
Proof.
  exact (boundaries_on_changes (init 25 2)
           (Solid.capture 1 10 [0; 0; 0; 9; 9; 9; 9; 9; 9; 0]%Z) None tt
           [(0, 3 # 1); (3 # 1, 9 # 1); (9 # 1, 10 # 1)] eq_refl).
Defined.

(** X3.  A stream without a change is one scene.  On a video that opens with
    a non-zero frame rate (and a non-zero frame count or no callback), when no
    frame scores above the threshold against the frame before, as for an
    empty stream or a single frame, [detect_scenes] returns the single
    interval from 0 to [total_frames / fps]. *)
Theorem no_change_one_scene {cv : CV2} {W : Type} (self : SceneDetector)
    (cap : VideoCapture) (cb : option (@callback W)) (w : W) :
  isOpened cap = true ->
  ~ CAP_PROP_FPS cap == 0 ->
  int (CAP_PROP_FRAME_COUNT cap) <> 0%Z \/ cb = None ->
  changes self (stream cap) = [] ->
  returned (detect_scenes self cap cb w) = Ok [(0, duration_of cap)].
Proof.
  intros Hopen Hfps Hcb Hquiet.
  destruct (detect_scenes_returns self cap cb w Hopen Hfps Hcb) as (st & Hit & ->).
  apply iterate_added in Hit as (added & Hsc & _ & Hin).
  cbn [scene_changes prev_frame frame_count initial app] in Hsc, Hin.
  fold (changes self (stream cap)) in Hin. rewrite Hquiet in Hin.
  destruct added as [|i added]; [|inversion Hin as [|? ? []]].
  cbn [returned]. rewrite Hsc. reflexivity.
Qed.

Lemma no_change_one_scene_witness :
  returned (detect_scenes (init 25 2) (Solid.capture 10 0 []) None tt)
  = Ok [(0, duration_of (Solid.capture 10 0 []))] /\
  returned (detect_scenes (init 25 2) (Solid.capture 10 3 [7; 7; 7]%Z)
              (Some Solid.record_progress) [])
  = Ok [(0, duration_of (Solid.capture 10 3 [7; 7; 7]%Z))].
Proof.
  split.
  - apply (no_change_one_scene (init 25 2) (Solid.capture 10 0 []) None tt).
    + reflexivity.
    + intro H. discriminate H.
    + right. reflexivity.
    + reflexivity.
  - apply (no_change_one_scene (init 25 2) (Solid.capture 10 3 [7; 7; 7]%Z)
             (Some Solid.record_progress) []).
    + reflexivity.
    + intro H. discriminate H.
    + left. intro H. discriminate H.
    + reflexivity.
Defined.

(** X4.  The first change is always a boundary.  If no frame up to [prev]
    scores above the threshold and [cur], the frame after [prev], does, then
    the first interval [detect_scenes] returns ends at the time of [cur],
    whatever the minimum scene length. *)
Theorem first_change_is_boundary {cv : CV2} {W : Type} (self : SceneDetector)
    (cap : VideoCapture) (cb : option (@callback W)) (w : W)
    (pre post : list Frame) (prev cur : Frame) (ivs : list (Q * Q)) :
  stream cap = pre ++ prev :: cur :: post ->
  changes self (pre ++ [prev]) = [] ->
  threshold self < calculate_frame_difference prev cur ->
  returned (detect_scenes self cap cb w) = Ok ivs ->
  exists rest,
    ivs = (0, of_nat (S (List.length pre)) / CAP_PROP_FPS cap) :: rest.
Proof.
  intros Hstream Hquiet Hgt H.
  apply detect_scenes_Ok in H as (_ & _ & st & Hit & ->).
  rewrite Hstream in Hit.
  change (pre ++ prev :: cur :: post) with (pre ++ [prev] ++ [cur] ++ post) in Hit.
  rewrite app_assoc, iterate_app in Hit.
  apply bind_Ok_inv in Hit as (s1 & H1 & Hit).
  rewrite iterate_app in Hit. apply bind_Ok_inv in Hit as (s2 & H2 & Hpost).
  pose proof (iterate_added _ _ _ _ _ _ _ H1) as (a1 & Hsc1 & _ & Hin1).
  cbn [scene_changes prev_frame frame_count initial app] in Hsc1, Hin1.
  fold (changes self (pre ++ [prev])) in Hin1. rewrite Hquiet in Hin1.
  destruct a1 as [|i a1]; [|inversion Hin1 as [|? ? []]]. cbn [map] in Hsc1.
  rewrite iterate_app in H1. apply bind_Ok_inv in H1 as (s0 & Hpre & H1).
  simpl in H1. apply bind_Ok_inv in H1 as (s1' & Hb1 & Heq). injection Heq as ->.
  apply iterate_counts in Hpre as [Hcount _]. simpl in Hcount.
  apply loop_body_Ok in Hb1 as (c1 & w1 & _ & _ & ->).
  cbn [scene_changes] in Hsc1. subst c1.
  simpl in H2. apply bind_Ok_inv in H2 as (s2' & Hb2 & Heq). injection Heq as ->.
  apply loop_body_Ok in Hb2 as (c2 & w2 & Hc2 & _ & ->).
  eapply consider_frame_Ok in Hc2; [|reflexivity].
  cbn [scene_changes frame_count read_once] in Hc2. rewrite Hcount in Hc2.
  destruct Hc2 as [(_ & _ & ->) | (Hno & _)].
  - apply iterate_added in Hpost as (a2 & Hsc2 & _ & _).
    cbn [scene_changes app] in Hsc2. rewrite Hsc2, scene_pairs_consecutive.
    eexists. cbn [app]. rewrite consecutive_cons. reflexivity.
  - exfalso. apply Hno. split; [exact Hgt | left; reflexivity].
Qed.

(** The change comes at frame 1, 0.1 s after the start, with a minimum scene
    length of 2 s. *)
Lemma first_change_is_boundary_witness :
  exists rest,
    [(0, 1 # 10); (1 # 10, 4 # 10)] = (0, of_nat 1 / 10) :: rest.
Proof.
  exact (first_change_is_boundary (init 25 2)
           (Solid.capture 10 4 [0; 9; 9; 9]%Z) None tt
           [] [9; 9]%Z 0%Z 9%Z [(0, 1 # 10); (1 # 10, 4 # 10)]
           eq_refl eq_refl eq_refl eq_refl).
Defined.

(** ** Without a minimum scene length *)

Lemma iterate_all_changes {cv : CV2} {W : Type} (self : SceneDetector)
    (fps : Q) (total : Z) (cb : option (@callback W)) (l : list Frame)
    (st st' : @locals cv W) :
  0 < fps -> min_scene_length self <= 0 -> ordered fps st ->
  iterate self fps total cb l st = Ok st' ->
  scene_changes st' =
  scene_changes st
  ++ map (time_of fps) (changes_from self (prev_frame st) (frame_count st) l).
Proof.
  intros Hfps Hmsl. revert st. induction l as [|f l IH]; intros st Hord H.
  - injection H as <-. simpl. now rewrite app_nil_r.
  - simpl in H. apply bind_Ok_inv in H as (s1 & Hb & H).
    pose proof (ordered_step _ _ _ _ _ _ _ Hfps Hord Hb) as Hord1.
    apply IH in H; [|exact Hord1]. clear IH Hord1.
    destruct Hord as (_ & _ & Hlast & Hfc).
    apply loop_body_Ok in Hb as (c & w & Hc & _ & ->).
    cbn [scene_changes prev_frame frame_count read_once] in *.
    rewrite H. cbn [changes_from]. rewrite map_app, app_assoc. f_equal.
    destruct (prev_frame st) as [p|] eqn:Hprev.
    + eapply consider_frame_Ok in Hc; [|exact Hprev].
      cbn [scene_changes frame_count read_once] in Hc.
      destruct (gt (calculate_frame_difference p f) (threshold self)) eqn:Hgt.
      * destruct Hc as [(_ & _ & ->) | (Hno & _)]; [reflexivity|].
        exfalso. apply Hno. split; [now apply gt_true_iff|]. right.
        assert (of_nat (Nat.pred (frame_count st)) / fps
                <= of_nat (frame_count st) / fps).
        { apply div_le_mono; [exact Hfps|]. apply of_nat_le. lia. }
        lra.
      * destruct Hc as [([Hd _] & _ & _) | (_ & ->)].
        -- apply gt_true_iff in Hd. congruence.
        -- simpl. now rewrite app_nil_r.
    + rewrite consider_frame_first in Hc by exact Hprev. injection Hc as <-.
      simpl. now rewrite app_nil_r.
Qed.

(** X5.  Without a minimum scene length nothing is suppressed.  With
    [fps > 0] and [min_scene_length <= 0], the boundaries [detect_scenes]
    puts between 0 and the final duration are the times of all the frames
    whose score exceeds the threshold. *)
Theorem no_minimum_keeps_every_change {cv : CV2} {W : Type}
    (self : SceneDetector) (cap : VideoCapture) (cb : option (@callback W))
    (w : W) (ivs : list (Q * Q)) :
  0 < CAP_PROP_FPS cap ->
  min_scene_length self <= 0 ->
  returned (detect_scenes self cap cb w) = Ok ivs ->
  ivs = scene_pairs (0 :: map (fun i => of_nat i / CAP_PROP_FPS cap)
                              (changes self (stream cap))
                       ++ [duration_of cap]).
Proof.
  intros Hfps Hmsl H.
  apply detect_scenes_Ok in H as (_ & _ & st & Hit & ->).
  apply iterate_all_changes in Hit; [|assumption..|apply ordered_initial].
  rewrite Hit. reflexivity.
Qed.

Lemma no_minimum_keeps_every_change_witness :
  let cap := Solid.capture 10 6 [0; 9; 0; 0; 9; 0]%Z in
  [(0, 1 # 10); (1 # 10, 2 # 10); (2 # 10, 4 # 10); (4 # 10, 5 # 10);
   (5 # 10, 6 # 10)] =
  scene_pairs (0 :: map (fun i => of_nat i / CAP_PROP_FPS cap)
                        (changes (init 25 0) (stream cap))
                 ++ [duration_of cap]).
Proof.
  apply (no_minimum_keeps_every_change (init 25 0)
           (Solid.capture 10 6 [0; 9; 0; 0; 9; 0]%Z) None tt).
  - reflexivity.
  - unfold Qle. simpl. lia.
  - reflexivity.
Defined.

(** X6.  With [fps > 0] only the last interval can be degenerate: every
    interval [detect_scenes] returns, the last one apart, ends after it
    starts, whatever frame count the container reports. *)
Theorem inner_intervals_positive {cv : CV2} {W : Type} (self : SceneDetector)
    (cap : VideoCapture) (cb : option (@callback W)) (w : W)
    (ivs : list (Q * Q)) :
  0 < CAP_PROP_FPS cap ->
  returned (detect_scenes self cap cb w) = Ok ivs ->
  exists front final,
    ivs = front ++ [final] /\ Forall (fun iv => fst iv < snd iv) front.
Proof.
  intros Hfps H.
  apply detect_scenes_Ok in H as (_ & _ & st & Hit & ->).
  pose proof (ordered_iterate _ _ _ _ _ _ _ Hfps (ordered_initial _ w) Hit)
    as ([bs Hbs] & Hinc & _).
  rewrite scene_pairs_consecutive, consecutive_snoc by (rewrite Hbs; congruence).
  eauto.
Qed.

Lemma inner_intervals_positive_witness :
  exists front final,
    [(0, 2 # 1); (2 # 1, 1 # 1)] = front ++ [final] /\
    Forall (fun iv => fst iv < snd iv) front.
Proof.
  apply (inner_intervals_positive (init 25 2) (Solid.capture 1 1 [0; 0; 9]%Z)
           None tt).
  - reflexivity.
  - reflexivity.
Defined.

(** ** The detector after a run *)

Lemma detect_scenes_of_iterate {cv : CV2} {W : Type} (self : SceneDetector)
    (cap : VideoCapture) (cb : option (@callback W)) (w : W) (st : @locals cv W) :
  isOpened cap = true -> ~ CAP_PROP_FPS cap == 0 ->
  iterate self (CAP_PROP_FPS cap) (int (CAP_PROP_FRAME_COUNT cap)) cb
          (stream cap) (initial w) = Ok st ->
  detect_scenes self cap cb w =
  {| detector := {| threshold := threshold self;
                    min_scene_length := min_scene_length self;
                    scene_timestamps :=
                      scene_pairs (scene_changes st ++ [duration_of cap]) |};
     cap_reads := S (List.length (stream cap));
     progress_sink := sink st;
     returned := Ok (scene_pairs (scene_changes st ++ [duration_of cap])) |}.
Proof.
  intros Hopen Hfps Hit.
  unfold detect_scenes. rewrite Hopen. cbn [negb].
  rewrite truediv_nonzero by exact Hfps.
  pose proof (scan_iterate self (CAP_PROP_FPS cap) (int (CAP_PROP_FRAME_COUNT cap))
                cb (stream cap) (initial w)) as Hscan.
  rewrite Hit in Hscan. rewrite Hscan.
  apply iterate_counts in Hit as [_ Hreads].
  cbn [read_once scene_changes reads sink]. rewrite Hreads. reflexivity.
Qed.

Lemma detect_scenes_Ok_full {cv : CV2} {W : Type} (self : SceneDetector)
    (cap : VideoCapture) (cb : option (@callback W)) (w : W) (ivs : list (Q * Q)) :
  returned (detect_scenes self cap cb w) = Ok ivs ->
  ivs <> [] /\
  exists st,
    iterate self (CAP_PROP_FPS cap) (int (CAP_PROP_FRAME_COUNT cap)) cb
            (stream cap) (initial w) = Ok st /\
    detect_scenes self cap cb w =
    {| detector := {| threshold := threshold self;
                      min_scene_length := min_scene_length self;
                      scene_timestamps := ivs |};
       cap_reads := S (List.length (stream cap));
       progress_sink := sink st;
       returned := Ok ivs |}.
Proof.
  intro H. apply detect_scenes_Ok in H as (Hopen & Hfps & st & Hit & ->).
  split.
  - intro Habs. apply (f_equal (@List.length (Q * Q))) in Habs.
    rewrite scene_pairs_length in Habs.
    apply iterate_added in Hit as (added & Hsc & _).
    rewrite Hsc in Habs. simpl in Habs. discriminate.
  - exists st. split; [exact Hit|].
    now apply detect_scenes_of_iterate.
Qed.

(** X7.  A run stores what it returns.  When [detect_scenes] returns a list,
    the detector holds that list afterwards with its threshold and minimum
    scene length unchanged, every frame was read once before the read that
    found the source exhausted, and splitting without a list then does what
    splitting with the returned list does. *)
Theorem detect_then_split {cv : CV2} {W : Type} {env : Env}
    (self : SceneDetector) (cap : VideoCapture) (cb : option (@callback W))
    (w : W) (ivs : list (Q * Q)) (video_path output_dir : string) :
  returned (detect_scenes self cap cb w) = Ok ivs ->
  let after := detector (detect_scenes self cap cb w) in
  scene_timestamps after = ivs /\
  threshold after = threshold self /\
  min_scene_length after = min_scene_length self /\
  cap_reads (detect_scenes self cap cb w) = S (List.length (stream cap)) /\
  split_video_into_scenes after video_path output_dir None =
  split_video_into_scenes self video_path output_dir (Some ivs).
Proof.
  intros H after. apply detect_scenes_Ok_full in H as (_ & st & _ & Heq).
  subst after. rewrite Heq. cbn [detector cap_reads].
  repeat split.
Qed.

Lemma detect_then_split_witness :
  let cap := Solid.capture 10 4 [0; 0; 9; 9]%Z in
  let after := detector (detect_scenes (init 25 2) cap None tt) in
  scene_timestamps after = [(0, 2 # 10); (2 # 10, 4 # 10)] /\
  threshold after = threshold (init 25 2) /\
  min_scene_length after = min_scene_length (init 25 2) /\
  cap_reads (detect_scenes (init 25 2) cap None tt) = S (List.length (stream cap)) /\
  split_video_into_scenes (env := Solid.env) after "v" "out" None =
  split_video_into_scenes (env := Solid.env) (init 25 2) "v" "out"
    (Some [(0, 2 # 10); (2 # 10, 4 # 10)]).
Proof.
  exact (detect_then_split (env := Solid.env) (init 25 2)
           (Solid.capture 10 4 [0; 0; 9; 9]%Z) None tt
           [(0, 2 # 10); (2 # 10, 4 # 10)] "v" "out" eq_refl).
Defined.

(** ** How [detect_scenes] fails *)

Section Failures.

Context {cv : CV2} {W : Type}.

Implicit Types (self : SceneDetector) (st : @locals cv W)
  (cb : option (@callback W)) (cap : VideoCapture).

Lemma truediv_Raise (a : Q) (total : Z) (e : exn) :
  truediv a (inject_Z total) = Raise e -> e = ZeroDivisionError /\ total = 0%Z.
Proof.
  unfold truediv. destruct (Qeq_bool _ _) eqn:E; [|discriminate].
  intro H. injection H as <-. split; [reflexivity|].
  apply Qeq_bool_iff in E. unfold Qeq in E. simpl in E. lia.
Qed.

Lemma notify_progress_Raise cb total n (w : W) e :
  notify_progress cb total n w = Raise e ->
  e = ZeroDivisionError /\ total = 0%Z /\ cb <> None /\ (n mod 30 = 0)%nat.
Proof.
  unfold notify_progress. destruct cb as [f|]; [|discriminate].
  destruct (n mod 30 =? 0)%nat eqn:Hmod; [|discriminate].
  destruct (truediv _ _) as [q|e'] eqn:Hdiv; [discriminate|].
  simpl. intro H. injection H as <-.
  apply truediv_Raise in Hdiv as [-> ->]. apply Nat.eqb_eq in Hmod.
  repeat split; [congruence | exact Hmod].
Qed.

Lemma notify_progress_quiet cb total n (w : W) :
  (n mod 30 <> 0)%nat -> notify_progress cb total n w = Ok w.
Proof.
  intro H. unfold notify_progress. destruct cb as [f|]; [|reflexivity].
  apply Nat.eqb_neq in H. now rewrite H.
Qed.

Lemma notify_progress_zero (f : @callback W) n (w : W) :
  (n mod 30 = 0)%nat ->
  notify_progress (Some f) 0 n w = Raise ZeroDivisionError.
Proof.
  intro H. unfold notify_progress. apply Nat.eqb_eq in H. now rewrite H.
Qed.

Lemma loop_body_Raise self fps total cb st frame e :
  ~ fps == 0 ->
  loop_body self fps total cb st frame = Raise e ->
  e = ZeroDivisionError /\ total = 0%Z /\ cb <> None /\
  (S (frame_count st) mod 30 = 0)%nat.
Proof.
  intros Hfps. unfold loop_body.
  destruct (consider_frame_total self fps st frame Hfps) as [c ->]. simpl.
  destruct (notify_progress _ _ _ _) as [w'|e'] eqn:Hn; [discriminate|].
  simpl. intro H. injection H as <-.
  now apply notify_progress_Raise in Hn.
Qed.

(** A scan that starts before frame 30 and raises does so at frame 30, with
    the callback not yet called. *)
Lemma scan_Raise_zero self fps (f : @callback W) (l : list Frame) st s e :
  ~ fps == 0 ->
  (frame_count st < 30)%nat -> reads st = frame_count st ->
  scan self fps 0 (Some f) l st = (s, Some e) ->
  e = ZeroDivisionError /\
  reads s = 30%nat /\ sink s = sink st /\
  (30 <= frame_count st + List.length l)%nat.
Proof.
  intro Hfps. revert st. induction l as [|fr l IH]; intros st Hlt Hreads H.
  - discriminate H.
  - simpl in H.
    destruct (loop_body self fps 0 (Some f) (read_once st) fr) as [st'|e'] eqn:Hb.
    + apply loop_body_Ok in Hb as (c & w' & _ & Hn & ->).
      cbn [frame_count sink read_once] in Hn.
      destruct (Nat.eq_dec (S (frame_count st) mod 30) 0) as [Hmod|Hmod].
      * rewrite notify_progress_zero in Hn by exact Hmod. discriminate Hn.
      * rewrite notify_progress_quiet in Hn by exact Hmod. injection Hn as <-.
        assert (S (frame_count st) <> 30)%nat
          by (intro Heq; rewrite Heq in Hmod; now apply Hmod).
        apply IH in H; cbn [frame_count reads sink read_once] in *; try lia.
        destruct H as (? & ? & ? & ?). cbn [List.length].
        repeat split; try assumption. lia.
    + injection H as <- <-.
      apply loop_body_Raise in Hb as (-> & _ & _ & Hmod); [|exact Hfps].
      cbn [frame_count reads sink read_once List.length] in *.
      assert (Hd := Nat.div_mod_eq (S (frame_count st)) 30).
      rewrite Hmod in Hd. repeat split; try assumption; lia.
Qed.

Lemma scan_Raise self fps total cb (l : list Frame) st s e :
  ~ fps == 0 ->
  (frame_count st < 30)%nat -> reads st = frame_count st ->
  scan self fps total cb l st = (s, Some e) ->
  e = ZeroDivisionError /\ total = 0%Z /\ cb <> None /\
  reads s = 30%nat /\ sink s = sink st /\
  (30 <= frame_count st + List.length l)%nat.
Proof.
  intros Hfps Hlt Hreads H.
  assert (Hcase : (total <> 0%Z \/ cb = None) \/ (total = 0%Z /\ exists f, cb = Some f)).
  { destruct (Z.eq_dec total 0) as [Hz|Hz]; [|auto].
    destruct cb as [f|]; [right; eauto | auto]. }
  destruct Hcase as [Hok | (-> & f & ->)].
  - exfalso.
    destruct (iterate_total self fps total cb l st Hfps Hok) as [st' Hit].
    pose proof (scan_iterate self fps total cb l st) as Hs.
    rewrite Hit in Hs. congruence.
  - apply scan_Raise_zero in H as (? & ? & ? & ?); try assumption.
    repeat split; try assumption. congruence.
Qed.

(** With a callback and a frame count of zero, a scan that starts before
    frame 30 and has frame 30 ahead raises there. *)
Lemma scan_raises self fps (f : @callback W) (l : list Frame) st :
  ~ fps == 0 ->
  (frame_count st < 30)%nat -> reads st = frame_count st ->
  (30 <= frame_count st + List.length l)%nat ->
  exists s, scan self fps 0 (Some f) l st = (s, Some ZeroDivisionError) /\
            reads s = 30%nat.
Proof.
  intro Hfps. revert st. induction l as [|fr l IH]; intros st Hlt Hreads Hlen.
  - simpl in Hlen. lia.
  - simpl. unfold loop_body.
    destruct (consider_frame_total self fps (read_once st) fr Hfps) as [c ->].
    cbn [Py.bind frame_count sink read_once].
    destruct (Nat.eq_dec (S (frame_count st)) 30) as [Heq|Hne].
    + rewrite notify_progress_zero by (rewrite Heq; reflexivity).
      cbn [Py.bind]. eexists. split; [reflexivity|].
      cbn [reads read_once]. lia.
    + assert (Hmod : (S (frame_count st) mod 30 <> 0)%nat).
      { rewrite Nat.mod_small by lia. lia. }
      rewrite notify_progress_quiet by exact Hmod. cbn [Py.bind].
      apply IH; cbn [frame_count reads read_once List.length] in *; lia.
Qed.

(** A scan that ends before frame 30 calls no callback and does not raise. *)
Lemma iterate_short self fps total cb (l : list Frame) st :
  ~ fps == 0 ->
  (frame_count st + List.length l < 30)%nat ->
  exists st', iterate self fps total cb l st = Ok st' /\ sink st' = sink st.
Proof.
  intro Hfps. revert st. induction l as [|fr l IH]; intros st Hlen.
  - exists st. split; reflexivity.
  - simpl. unfold loop_body.
    destruct (consider_frame_total self fps (read_once st) fr Hfps) as [c ->].
    cbn [Py.bind frame_count sink read_once].
    rewrite notify_progress_quiet
      by (cbn [List.length] in Hlen; rewrite Nat.mod_small by lia; lia).
    cbn [Py.bind].
    match goal with |- context [iterate _ _ _ _ l ?s] =>
      destruct (IH s) as (st' & Hit & Hsink) end.
    + cbn [frame_count List.length] in *. lia.
    + exists st'. split; [exact Hit | exact Hsink].
Qed.

End Failures.

(** X8.  The ways [detect_scenes] fails.  It raises in three cases only: the
    video does not open ([Exception] with the message of line 57); the frame
    rate is 0 ([ZeroDivisionError] from line 62); or the reported frame count
    is 0, a callback is given and the stream has at least 30 frames
    ([ZeroDivisionError] from line 94, at the 30th frame).  In the first two
    cases no frame has been read, in the third exactly 30; in all of them the
    detector is left as it was and the callback has not been called. *)
Theorem failure_modes {cv : CV2} {W : Type} (self : SceneDetector)
    (cap : VideoCapture) (cb : option (@callback W)) (w : W) (e : exn) :
  let o := detect_scenes self cap cb w in
  returned o = Raise e ->
  detector o = self /\ progress_sink o = w /\
  ((isOpened cap = false /\ cap_reads o = 0%nat /\
    e = Exception (String.append "Error: Could not open video " (video_path cap)))
   \/ (isOpened cap = true /\ CAP_PROP_FPS cap == 0 /\ cap_reads o = 0%nat /\
       e = ZeroDivisionError)
   \/ (isOpened cap = true /\ ~ CAP_PROP_FPS cap == 0 /\
       int (CAP_PROP_FRAME_COUNT cap) = 0%Z /\ cb <> None /\
       (30 <= List.length (stream cap))%nat /\ cap_reads o = 30%nat /\
       e = ZeroDivisionError)).
Proof.
  cbv zeta. unfold detect_scenes.
  destruct (isOpened cap); cbn [negb].
  - destruct (truediv _ _) as [duration|e'] eqn:Hdiv.
    + apply truediv_Ok_inv in Hdiv as [Hfps _].
      destruct (scan _ _ _ _ _ _) as [s [e'|]] eqn:Hscan; [|discriminate].
      cbn [returned detector progress_sink cap_reads]. intro H. injection H as ->.
      apply scan_Raise in Hscan as (-> & Htotal & Hcb & Hreads & Hsink & Hlen);
        [|exact Hfps|simpl; lia|reflexivity].
      split; [reflexivity|]. split; [exact Hsink|].
      right. right. simpl in Hlen. repeat split; assumption.
    + cbn [returned detector progress_sink cap_reads]. intro H. injection H as ->.
      split; [reflexivity|]. split; [reflexivity|]. right. left.
      unfold truediv in Hdiv. destruct (Qeq_bool _ _) eqn:E; [|discriminate].
      injection Hdiv as <-. apply Qeq_bool_iff in E. auto.
  - cbn [returned detector progress_sink cap_reads]. intro H. injection H as <-.
    split; [reflexivity|]. split; [reflexivity|]. left. auto.
Qed.

Lemma failure_modes_witness :
  let cap := Solid.capture 30 0 (repeat 0%Z 31) in
  let o := detect_scenes init_default cap (Some Solid.record_progress) [] in
  detector o = init_default /\ progress_sink o = [] /\
  ((isOpened cap = false /\ cap_reads o = 0%nat /\
    ZeroDivisionError
    = Exception (String.append "Error: Could not open video " (video_path cap)))
   \/ (isOpened cap = true /\ CAP_PROP_FPS cap == 0 /\ cap_reads o = 0%nat /\
       ZeroDivisionError = ZeroDivisionError)
   \/ (isOpened cap = true /\ ~ CAP_PROP_FPS cap == 0 /\
       int (CAP_PROP_FRAME_COUNT cap) = 0%Z /\
       Some Solid.record_progress <> None /\
       (30 <= List.length (stream cap))%nat /\ cap_reads o = 30%nat /\
       ZeroDivisionError = ZeroDivisionError)).
Proof.
  apply (failure_modes init_default (Solid.capture 30 0 (repeat 0%Z 31))
           (Some Solid.record_progress) [] ZeroDivisionError).
  vm_compute. reflexivity.
Defined.

(** X9.  When the frame count is reported as 0.  On a video that opens with a
    non-zero frame rate and a reported frame count of 0, a call with a
    callback raises [ZeroDivisionError] after exactly 30 reads if the stream
    has at least 30 frames, and returns its intervals if it has fewer. *)
Theorem callback_with_no_frame_count {cv : CV2} {W : Type}
    (self : SceneDetector) (cap : VideoCapture) (f : @callback W) (w : W) :
  isOpened cap = true ->
  ~ CAP_PROP_FPS cap == 0 ->
  int (CAP_PROP_FRAME_COUNT cap) = 0%Z ->
  let o := detect_scenes self cap (Some f) w in
  ((30 <= List.length (stream cap))%nat ->
   returned o = Raise ZeroDivisionError /\ cap_reads o = 30%nat) /\
  ((List.length (stream cap) < 30)%nat ->
   exists ivs, returned o = Ok ivs /\
               cap_reads o = S (List.length (stream cap)) /\ progress_sink o = w).
Proof.
  intros Hopen Hfps Htotal o. subst o. split; intro Hlen.
  - unfold detect_scenes. rewrite Hopen, Htotal. cbn [negb].
    rewrite truediv_nonzero by exact Hfps.
    destruct (scan_raises self (CAP_PROP_FPS cap) f (stream cap) (initial w) Hfps)
      as (s & Hscan & Hreads); [simpl; lia | reflexivity | simpl; lia |].
    rewrite Hscan. cbn [returned cap_reads]. auto.
  - destruct (iterate_short self (CAP_PROP_FPS cap) (int (CAP_PROP_FRAME_COUNT cap))
                (Some f) (stream cap) (initial w) Hfps) as (st & Hit & Hsink);
      [simpl; lia|].
    rewrite (detect_scenes_of_iterate self cap (Some f) w st Hopen Hfps Hit).
    cbn [returned cap_reads progress_sink]. eauto.
Qed.

Lemma callback_with_no_frame_count_witness :
  let o := detect_scenes init_default (Solid.capture 30 0 (repeat 0%Z 31))
             (Some Solid.record_progress) [] in
  ((30 <= List.length (repeat 0%Z 31))%nat ->
   returned o = Raise ZeroDivisionError /\ cap_reads o = 30%nat) /\
  ((List.length (repeat 0%Z 31) < 30)%nat ->
   exists ivs, returned o = Ok ivs /\
               cap_reads o = S (List.length (repeat 0%Z 31)) /\
               progress_sink o = []).
Proof.
  apply (callback_with_no_frame_count init_default
           (Solid.capture 30 0 (repeat 0%Z 31)) Solid.record_progress []).
  - reflexivity.
  - intro H. discriminate H.
  - reflexivity.
Defined.

(** ** What the callback is told *)

Section Notifications.

Context {cv : CV2} {W : Type}.

Lemma ticks_from_S (c n : nat) :
  ticks_from c (S n) =
  (if (S c mod 30 =? 0)%nat then [S c] else []) ++ ticks_from (S c) n.
Proof.
  unfold ticks_from. cbn [seq filter]. destruct (S c mod 30 =? 0)%nat; reflexivity.
Qed.

Lemma iterate_sink (self : SceneDetector) (fps : Q) (total : Z)
    (f : @callback W) (l : list Frame) (st st' : @locals cv W) :
  iterate self fps total (Some f) l st = Ok st' ->
  sink st' =
  fold_left (fun w m => f (of_nat m / inject_Z total * 100) w)
            (ticks_from (frame_count st) (List.length l)) (sink st).
Proof.
  revert st. induction l as [|fr l IH]; intros st H.
  - injection H as <-. reflexivity.
  - simpl in H. apply bind_Ok_inv in H as (s1 & Hb & H).
    apply loop_body_Ok in Hb as (c & w' & _ & Hn & ->).
    apply IH in H. cbn [frame_count sink read_once] in *.
    rewrite H. cbn [List.length]. rewrite ticks_from_S, fold_left_app.
    f_equal. unfold notify_progress in Hn.
    destruct (S (frame_count st) mod 30 =? 0)%nat.
    + apply bind_Ok_inv in Hn as (ratio & Hdiv & Hn).
      apply truediv_Ok_inv in Hdiv as [_ ->]. injection Hn as <-. reflexivity.
    + injection Hn as <-. reflexivity.
Qed.

End Notifications.

Lemma fold_left_map_arg {A B C : Type} (g : A -> B -> A) (h : C -> B)
    (l : list C) (a : A) :
  fold_left g (map h l) a = fold_left (fun x c => g x (h c)) l a.
Proof. revert a. induction l as [|c l IH]; intro a; [reflexivity|]. apply IH. Qed.

Lemma fold_left_snoc {A : Type} (l acc : list A) :
  fold_left (fun seen p => seen ++ [p]) l acc = acc ++ l.
Proof.
  revert acc. induction l as [|a l IH]; intro acc; simpl.
  - now rewrite app_nil_r.
  - rewrite IH, <- app_assoc. reflexivity.
Qed.

Lemma ticks_from_In (c n m : nat) :
  In m (ticks_from c n) <-> (c < m <= c + n)%nat /\ (m mod 30 = 0)%nat.
Proof.
  unfold ticks_from. rewrite filter_In, in_seq, Nat.eqb_eq. lia.
Qed.

Lemma ticks_from_sorted (c n : nat) : StronglySorted Nat.lt (ticks_from c n).
Proof.
  revert c. induction n as [|n IH]; intro c; [constructor|].
  rewrite ticks_from_S.
  assert (Hall : Forall (Nat.lt (S c)) (ticks_from (S c) n)).
  { apply Forall_forall. intros m Hm. apply ticks_from_In in Hm.
    unfold Nat.lt. lia. }
  destruct (S c mod 30 =? 0)%nat; cbn [app]; [constructor|]; auto.
Qed.

Lemma ticks_length (n : nat) : List.length (ticks_from 0 n) = (n / 30)%nat.
Proof.
  induction n as [|n IH]; [reflexivity|].
  unfold ticks_from in *. rewrite seq_S, filter_app, length_app, IH.
  cbn [filter Nat.add].
  destruct (S n mod 30 =? 0)%nat eqn:Hmod; cbn [List.length].
  - apply Nat.eqb_eq in Hmod.
    assert (H1 := Nat.div_mod_eq (S n) 30). assert (H2 := Nat.div_mod_eq n 30).
    assert (H3 := Nat.mod_upper_bound n 30). lia.
  - apply Nat.eqb_neq in Hmod.
    assert (H1 := Nat.div_mod_eq (S n) 30). assert (H2 := Nat.div_mod_eq n 30).
    assert (H3 := Nat.mod_upper_bound n 30).
    assert (H4 := Nat.mod_upper_bound (S n) 30). lia.
Qed.

Lemma sorted_map_lt (g : nat -> Q) (l : list nat) :
  (forall a b, (a < b)%nat -> g a < g b) ->
  StronglySorted Nat.lt l -> StronglySorted Qlt (map g l).
Proof.
  intros Hg. induction 1 as [|a l Hs IH Hall]; [constructor|].
  cbn [map]. constructor; [exact IH|].
  apply Forall_map. eapply Forall_impl; [|exact Hall].
  intros b Hb. apply Hg, Hb.
Qed.

(** The callback's state after a run that returns. *)
Lemma detect_scenes_sink {cv : CV2} {W : Type} (self : SceneDetector)
    (cap : VideoCapture) (f : @callback W) (w : W) (ivs : list (Q * Q)) :
  returned (detect_scenes self cap (Some f) w) = Ok ivs ->
  progress_sink (detect_scenes self cap (Some f) w) =
  fold_left (fun seen m =>
               f (of_nat m / inject_Z (int (CAP_PROP_FRAME_COUNT cap)) * 100) seen)
            (ticks_from 0 (List.length (stream cap))) w.
Proof.
  intro H. apply detect_scenes_Ok_full in H as (_ & st & Hit & ->).
  cbn [progress_sink]. apply iterate_sink in Hit.
  cbn [frame_count sink initial] in Hit. exact Hit.
Qed.

(** X10.  What the callback is told.  When [detect_scenes] returns from a
    call with a callback, the callback has been called once for every frame
    count from 1 to the number of frames that is a multiple of 30, in
    increasing order, with [count / total_frames * 100], and not otherwise. *)
Theorem progress_notifications {cv : CV2} {W : Type} (self : SceneDetector)
    (cap : VideoCapture) (f : @callback W) (w : W) (ivs : list (Q * Q)) :
  returned (detect_scenes self cap (Some f) w) = Ok ivs ->
  progress_sink (detect_scenes self cap (Some f) w) =
  fold_left (fun seen p => f p seen)
            (progress_values (int (CAP_PROP_FRAME_COUNT cap))
                             (List.length (stream cap)))
            w.
Proof.
  intro H. rewrite (detect_scenes_sink _ _ _ _ _ H).
  unfold progress_values. now rewrite fold_left_map_arg.
Qed.

Lemma progress_notifications_witness :
  let cap := Solid.capture 10 100 (repeat 0%Z 50 ++ repeat 200%Z 50) in
  progress_sink (detect_scenes (init 25 2) cap (Some Solid.record_progress) []) =
  fold_left (fun seen p => Solid.record_progress p seen)
            (progress_values (int (CAP_PROP_FRAME_COUNT cap))
                             (List.length (stream cap)))
            [].
Proof.
  exact (progress_notifications (init 25 2)
           (Solid.capture 10 100 (repeat 0%Z 50 ++ repeat 200%Z 50))
           Solid.record_progress []
           [(0, 50 # 10); (50 # 10, 100 # 10)] eq_refl).
Defined.

(** X11.  The percentages.  When the reported frame count is positive and no
    smaller than the number of frames read, the percentages a recording
    callback has seen once [detect_scenes] returns number one per 30 frames,
    lie above 0 and up to 100, and strictly increase. *)
Theorem progress_percentages {cv : CV2} (self : SceneDetector)
    (cap : VideoCapture) (ivs : list (Q * Q)) :
  (0 < int (CAP_PROP_FRAME_COUNT cap))%Z ->
  (Z.of_nat (List.length (stream cap)) <= int (CAP_PROP_FRAME_COUNT cap))%Z ->
  returned (detect_scenes self cap (Some Solid.record_progress) []) = Ok ivs ->
  let seen :=
    progress_sink (detect_scenes self cap (Some Solid.record_progress) []) in
  List.length seen = (List.length (stream cap) / 30)%nat /\
  Forall (fun p => 0 < p /\ p <= 100) seen /\
  StronglySorted Qlt seen.
Proof.
  intros Hpos Hlen H seen. subst seen.
  rewrite (detect_scenes_sink _ _ _ _ _ H).
  rewrite <- (fold_left_map_arg (fun (seen : list Q) p => seen ++ [p])
                (fun m => of_nat m / inject_Z (int (CAP_PROP_FRAME_COUNT cap)) * 100)).
  rewrite fold_left_snoc. cbn [app].
  set (total := int (CAP_PROP_FRAME_COUNT cap)) in *.
  assert (Htotal : 0 < inject_Z total)
    by (change 0 with (inject_Z 0); rewrite <- Zlt_Qlt; exact Hpos).
  split; [|split].
  - rewrite length_map. apply ticks_length.
  - apply Forall_map, Forall_forall. intros m Hm.
    apply ticks_from_In in Hm as [Hm _].
    assert (H0 : 0 < of_nat m) by (change 0 with (of_nat 0); apply of_nat_lt; lia).
    assert (H1 : of_nat m <= inject_Z total)
      by (unfold of_nat; rewrite <- Zle_Qle; lia).
    split.
    + apply Qmult_lt_0_compat; [|reflexivity].
      apply Qlt_shift_div_l; [exact Htotal|]. now rewrite Qmult_0_l.
    + assert (Hq : of_nat m / inject_Z total <= 1).
      { apply Qle_shift_div_r; [exact Htotal|]. now rewrite Qmult_1_l. }
      lra.
  - apply sorted_map_lt; [|apply ticks_from_sorted].
    intros a b Hab.
    assert (Hdiv : of_nat a / inject_Z total < of_nat b / inject_Z total)
      by (apply div_lt_mono; [exact Htotal | apply of_nat_lt, Hab]).
    lra.
Qed.

Lemma progress_percentages_witness :
  let cap := Solid.capture 10 100 (repeat 0%Z 50 ++ repeat 200%Z 50) in
  let seen :=
    progress_sink (detect_scenes (init 25 2) cap (Some Solid.record_progress) []) in
  List.length seen = (List.length (stream cap) / 30)%nat /\
  Forall (fun p => 0 < p /\ p <= 100) seen /\
  StronglySorted Qlt seen.
Proof.
  apply (progress_percentages (init 25 2)
           (Solid.capture 10 100 (repeat 0%Z 50 ++ repeat 200%Z 50))
           [(0, 50 # 10); (50 # 10, 100 # 10)]).
  - reflexivity.
  - vm_compute. intro H. discriminate H.
  - vm_compute. reflexivity.
Defined.

(** ** The splitter's counts *)

Lemma enumerate_from_length {A : Type} (k : nat) (l : list A) :
  List.length (enumerate_from k l) = List.length l.
Proof.
  revert k. induction l as [|a l IH]; intro k; [reflexivity|].
  simpl. now rewrite IH.
Qed.

Lemma filter_all {A : Type} (f : A -> bool) (l : list A) :
  (forall a, In a l -> f a = true) -> filter f l = l.
Proof.
  intro H. apply forallb_filter_id, forallb_forall, H.
Qed.

(** What a call of the splitter on a non-empty list comes to. *)
Lemma split_video_into_scenes_Ok {env : Env} (self : SceneDetector)
    (video_path output_dir : string) (timestamps_arg : option (list (Q * Q)))
    (calls : list call) (created : list string) :
  split_video_into_scenes self video_path output_dir timestamps_arg
  = (calls, Ok created) ->
  let ts := match timestamps_arg with
            | None => scene_timestamps self
            | Some l => l
            end in
  let name := video_name_of video_path in
  ts <> [] /\
  created = map (clip_path output_dir name)
                (filter (written output_dir name)
                        (filter long_enough (enumerate ts))) /\
  exists info_file info,
    calls = Makedirs output_dir :: VideoFileClip video_path
            :: map (attempt output_dir name) (filter long_enough (enumerate ts))
            ++ [JsonDump info_file info] /\
    Report.total_scenes info = List.length ts /\
    Report.created_clips info = List.length created.
Proof.
  intros H ts name. unfold split_video_into_scenes in H. fold ts name in H.
  destruct ts as [|iv ts'] eqn:Hts; [discriminate|].
  rewrite split_loop_spec in H. injection H as <- <-.
  split; [congruence|]. split; [reflexivity|].
  do 2 eexists. split; [reflexivity|]. split; reflexivity.
Qed.

(** X12.  Clips and scenes.  When the splitter returns, it returns no more
    clips than there are intervals, in the order of the intervals; and when
    no interval is shorter than 0.5 s and no write fails, it returns exactly
    one clip per interval. *)
Theorem clips_per_scene {env : Env} (self : SceneDetector)
    (video_path output_dir : string) (timestamps_arg : option (list (Q * Q)))
    (calls : list call) (created : list string) :
  split_video_into_scenes self video_path output_dir timestamps_arg
  = (calls, Ok created) ->
  let ts := match timestamps_arg with
            | None => scene_timestamps self
            | Some l => l
            end in
  (List.length created <= List.length ts)%nat /\
  ((forall iv, In iv ts -> 1 # 2 <= snd iv - fst iv) ->
   (forall i p s e, write_videofile i p s e = true) ->
   created = map (clip_path output_dir (video_name_of video_path)) (enumerate ts)).
Proof.
  intros H ts. apply split_video_into_scenes_Ok in H as (_ & -> & _).
  fold ts. split.
  - rewrite length_map.
    etransitivity; [apply filter_length_le|].
    etransitivity; [apply filter_length_le|].
    unfold enumerate. now rewrite enumerate_from_length.
  - intros Hlong Hwrite. f_equal.
    rewrite (filter_all long_enough).
    + apply filter_all. intros p _. unfold written. apply Hwrite.
    + intros [i [s e]] Hin. apply enumerate_from_In in Hin as [_ Hnth].
      apply nth_error_In in Hnth. apply Hlong in Hnth. cbn [fst snd] in Hnth.
      unfold long_enough. cbn [fst snd].
      destruct (lt (e - s) (1 # 2)) eqn:Hlt; [|reflexivity].
      apply lt_true_iff in Hlt. exfalso. apply (Qlt_not_le _ _ Hlt), Hnth.
Qed.

Lemma clips_per_scene_witness :
  let ts := [(0, 5); (5, 53 # 10); (53 # 10, 9); (9, 10)] in
  (List.length ["out/v_scene_1.mp4"; "out/v_scene_4.mp4"] <= List.length ts)%nat /\
  ((forall iv, In iv ts -> 1 # 2 <= snd iv - fst iv) ->
   (forall i p s e, write_videofile (Env := Solid.env) i p s e = true) ->
   ["out/v_scene_1.mp4"; "out/v_scene_4.mp4"] =
   map (clip_path (env := Solid.env) "out" (video_name_of (Env := Solid.env) "v"))
       (enumerate ts)).
Proof.
  refine (clips_per_scene (env := Solid.env) init_default "v" "out"
            (Some [(0, 5); (5, 53 # 10); (53 # 10, 9); (9, 10)]) _ _ _).
  vm_compute. reflexivity.
Defined.

(** ** Reusing a detector *)

Section Reuse.

Context {cv : CV2} {W : Type}.

Implicit Types (self : SceneDetector) (st : @locals cv W)
  (cb : option (@callback W)) (cap : VideoCapture).

Lemma scan_same_settings self1 self2 fps total cb (l : list Frame) st :
  threshold self1 = threshold self2 ->
  min_scene_length self1 = min_scene_length self2 ->
  scan self1 fps total cb l st = scan self2 fps total cb l st.
Proof.
  intros Hth Hmsl. revert st. induction l as [|f l IH]; intro st; [reflexivity|].
  simpl.
  replace (loop_body self2 fps total cb (read_once st) f)
    with (loop_body self1 fps total cb (read_once st) f)
    by (unfold loop_body, consider_frame; now rewrite Hth, Hmsl).
  destruct (loop_body _ _ _ _ _ _); [apply IH | reflexivity].
Qed.

Lemma detector_settings self cap cb (w : W) :
  threshold (detector (detect_scenes self cap cb w)) = threshold self /\
  min_scene_length (detector (detect_scenes self cap cb w)) = min_scene_length self.
Proof.
  unfold detect_scenes. destruct (isOpened cap); cbn [negb]; [|auto].
  destruct (truediv _ _); [|auto].
  destruct (scan _ _ _ _ _ _) as [s [e|]]; auto.
Qed.

End Reuse.

(** X14.  A detector can be used again.  A detector that has already run on
    any video, whether that run returned or raised, gives on the next video
    what the fresh detector gives: the same list or the same exception, the
    same frames read and the same calls of the callback.  When the next run
    returns, the two detectors are the same afterwards: what was stored is
    replaced, never read.  When it raises, each detector is left as it was,
    so the used one keeps the list of its earlier run. *)
Theorem detector_reuse {cv : CV2} {W0 W : Type} (self : SceneDetector)
    (cap0 cap : VideoCapture) (cb0 : option (@callback W0)) (w0 : W0)
    (cb : option (@callback W)) (w : W) :
  let used := detector (detect_scenes self cap0 cb0 w0) in
  returned (detect_scenes used cap cb w) = returned (detect_scenes self cap cb w) /\
  cap_reads (detect_scenes used cap cb w) = cap_reads (detect_scenes self cap cb w) /\
  progress_sink (detect_scenes used cap cb w)
  = progress_sink (detect_scenes self cap cb w) /\
  (forall ivs, returned (detect_scenes self cap cb w) = Ok ivs ->
     detector (detect_scenes used cap cb w) = detector (detect_scenes self cap cb w)) /\
  (forall e, returned (detect_scenes self cap cb w) = Raise e ->
     detector (detect_scenes used cap cb w) = used /\
     detector (detect_scenes self cap cb w) = self).
Proof.
  intro used.
  destruct (detector_settings self cap0 cb0 w0) as [Hth Hmsl]. fold used in Hth, Hmsl.
  assert (Hraise : forall (e : exn) (a b : SceneDetector),
             forall ivs : list (Q * Q), @Raise (list (Q * Q)) e = Ok ivs -> a = b)
    by (intros e a b ivs Hivs; discriminate Hivs).
  clearbody used. unfold detect_scenes.
  destruct (isOpened cap); cbn [negb].
  - destruct (truediv _ _) as [duration|e].
    + rewrite (scan_same_settings used self) by assumption.
      destruct (scan self _ _ _ _ _) as [s [e|]];
        cbn [returned cap_reads progress_sink detector].
      * repeat (split; [reflexivity|]). split; [apply Hraise | auto].
      * rewrite Hth, Hmsl. repeat (split; [reflexivity|]).
        intros e He. discriminate He.
    + cbn [returned cap_reads progress_sink detector].
      repeat (split; [reflexivity|]). split; [apply Hraise | auto].
  - cbn [returned cap_reads progress_sink detector].
    repeat (split; [reflexivity|]). split; [apply Hraise | auto].
Qed.

(** After a run that returned, a run that raises leaves the stored list in
    place: the used detector and the fresh one then differ. *)
Example detector_reuse_after_failure :
  let used := detector (detect_scenes (init 25 2)
                          (Solid.capture 10 4 [0; 0; 9; 9]%Z) None tt) in
  let broken := Solid.capture 0 4 [0; 0; 9; 9]%Z in
  returned (detect_scenes used broken None tt) = Raise ZeroDivisionError /\
  scene_timestamps (detector (detect_scenes used broken None tt))
  = [(0, 2 # 10); (2 # 10, 4 # 10)] /\
  scene_timestamps (detector (detect_scenes (init 25 2) broken None tt)) = [].
Proof. cbv zeta. repeat split. Qed.

(** ** Detection and the clip floor *)

Lemma spaced_nth (gap : Q) (bs : list Q) (i : nat) (iv : Q * Q) :
  spaced gap bs -> nth_error (consecutive bs) i = Some iv ->
  gap <= snd iv - fst iv.
Proof.
  intros Hsp Hnth. unfold spaced in Hsp. rewrite Forall_forall in Hsp.
  apply Hsp. eapply nth_error_In, Hnth.
Qed.

(** X15.  Only the first and the last scene can fall under the clip floor.
    With a minimum scene length of at least 0.5 s, every interval
    [detect_scenes] returns other than the first and the last lasts at least
    0.5 s, so the splitter requests a clip for it. *)
Theorem inner_scenes_reach_the_floor {cv : CV2} {W : Type} (self : SceneDetector)
    (cap : VideoCapture) (cb : option (@callback W)) (w : W)
    (ivs : list (Q * Q)) (i : nat) (iv : Q * Q) :
  1 # 2 <= min_scene_length self ->
  returned (detect_scenes self cap cb w) = Ok ivs ->
  (0 < i < List.length ivs - 1)%nat ->
  nth_error ivs i = Some iv ->
  1 # 2 <= snd iv - fst iv /\ long_enough (i, iv) = true.
Proof.
  intros Hmsl H Hi Hnth.
  apply detect_scenes_Ok in H as (_ & _ & st & Hit & ->).
  apply well_spaced_iterate in Hit as (bs & Hbs & Hsp);
    [|apply well_spaced_initial].
  rewrite scene_pairs_consecutive, Hbs in Hnth, Hi.
  rewrite consecutive_length, length_app in Hi. cbn [List.length] in Hi.
  destruct i as [|i]; [lia|].
  destruct bs as [|b bs]; [simpl in Hi; lia|].
  change ((0 :: b :: bs) ++ [duration_of cap])
    with (0 :: ((b :: bs) ++ [duration_of cap])) in Hnth.
  change (0 :: (b :: bs) ++ [duration_of cap])
    with (0 :: b :: (bs ++ [duration_of cap])) in Hnth.
  rewrite consecutive_cons in Hnth. cbn [nth_error] in Hnth.
  change (b :: bs ++ [duration_of cap]) with ((b :: bs) ++ [duration_of cap]) in Hnth.
  rewrite consecutive_snoc in Hnth by congruence.
  rewrite nth_error_app1 in Hnth
    by (rewrite consecutive_length; cbn [List.length] in *; lia).
  assert (Hlong : 1 # 2 <= snd iv - fst iv).
  { eapply Qle_trans; [exact Hmsl|]. eapply spaced_nth; eassumption. }
  split; [exact Hlong|].
  unfold long_enough. cbn [fst snd].
  destruct (lt (snd iv - fst iv) (1 # 2)) eqn:Hlt; [|reflexivity].
  apply lt_true_iff in Hlt. exfalso. apply (Qlt_not_le _ _ Hlt), Hlong.
Qed.

(** The middle scene, from 3 s to 9 s, of three. *)
Lemma inner_scenes_reach_the_floor_witness :
  1 # 2 <= snd (3 # 1, 9 # 1) - fst (3 # 1, 9 # 1) /\
  long_enough (1%nat, (3 # 1, 9 # 1)) = true.
Proof.
  apply (inner_scenes_reach_the_floor (init 25 2)
           (Solid.capture 1 10 [0; 0; 0; 9; 9; 9; 9; 9; 9; 0]%Z) None tt
           [(0, 3 # 1); (3 # 1, 9 # 1); (9 # 1, 10 # 1)] 1 (3 # 1, 9 # 1)).
  - unfold Qle. simpl. lia.
  - reflexivity.
  - simpl. lia.
  - reflexivity.
Defined.

(** ** The module in binary64: facts *)

Module F64Facts.

Import PrimFloat.
Import F64.

Lemma bind_inv {A B : Type} (m : result A) (k : A -> result B) (b : B) :
  bind m k = Ok b -> exists a, m = Ok a /\ k a = Ok b.
Proof. destruct m as [a|e]; simpl; [eauto | discriminate]. Qed.

(** *** Pairs of consecutive floats *)

Lemma pairs_cons (a b : float) (l : list float) :
  consecutive (a :: b :: l) = (a, b) :: consecutive (b :: l).
Proof. reflexivity. Qed.

Lemma pairs_length (l : list float) :
  List.length (consecutive l) = (List.length l - 1)%nat.
Proof.
  unfold consecutive. rewrite length_combine.
  destruct l as [|a l]; [reflexivity|].
  cbn [tl List.length]. rewrite Nat.sub_1_r. cbn [Nat.pred].
  apply Nat.min_r. lia.
Qed.

Lemma pairs_nth (l : list float) (i : nat) :
  (i < List.length l - 1)%nat ->
  nth_error (consecutive l) i = Some (nth i l 0%float, nth (i + 1) l 0%float).
Proof.
  revert i. induction l as [|a l IH]; intros i Hi; [simpl in Hi; lia|].
  destruct l as [|b l]; [simpl in Hi; lia|].
  rewrite pairs_cons. destruct i as [|i]; [reflexivity|].
  simpl nth_error. rewrite IH by (simpl in *; lia). reflexivity.
Qed.

(** The list comprehension of lines 101-102 pairs consecutive boundaries. *)
Lemma scene_pairs_pairs (l : list float) : scene_pairs l = consecutive l.
Proof.
  apply nth_error_ext. intro i. unfold scene_pairs.
  rewrite nth_error_map.
  destruct (Nat.lt_ge_cases i (List.length l - 1)) as [Hi|Hi].
  - rewrite pairs_nth by exact Hi.
    rewrite nth_error_nth' with (d := 0%nat) by (rewrite length_seq; exact Hi).
    rewrite seq_nth by exact Hi. reflexivity.
  - replace (nth_error (seq 0 (List.length l - 1)) i) with (@None nat)
      by (symmetry; apply nth_error_None; rewrite length_seq; exact Hi).
    symmetry. apply nth_error_None. rewrite pairs_length. exact Hi.
Qed.

(** The starts of the intervals are the boundaries before the final one. *)
Lemma boundaries_of_pairs (l : list float) (final : float) :
  boundaries_of (scene_pairs (l ++ [final])) = l.
Proof.
  rewrite scene_pairs_pairs. unfold boundaries_of.
  induction l as [|a l IH]; [reflexivity|].
  destruct l as [|b l]; [reflexivity|].
  change ((a :: b :: l) ++ [final]) with (a :: b :: (l ++ [final])).
  rewrite pairs_cons. cbn [map fst]. f_equal. exact IH.
Qed.

Lemma pairs_of_boundaries_length (l : list float) (final : float) :
  List.length (scene_pairs (l ++ [final])) = List.length l.
Proof.
  rewrite scene_pairs_pairs, pairs_length, length_app. simpl. lia.
Qed.

(** *** The loop *)

Section LoopFacts.

Context {cv : CV2} {W : Type}.

Implicit Types (self : SceneDetector) (st : @locals cv W)
  (cb : option (@callback W)) (cap : VideoCapture).

Lemma consider_first self fps st frame :
  prev_frame st = None ->
  consider_frame self fps st frame = Ok (scene_changes st).
Proof. intro H. unfold consider_frame. now rewrite H. Qed.

(** What lines 77-87 do to the boundary list when they do not raise: the two
    tests, as the code evaluates them, decide. *)
Lemma consider_Ok self fps st prev frame changes :
  prev_frame st = Some prev ->
  consider_frame self fps st frame = Ok changes ->
  let d := calculate_frame_difference prev frame in
  (gt d (threshold self) = true /\
   exists t, truediv (Z.of_nat (frame_count st)) fps = Ok t /\
     (((List.length (scene_changes st) = 1%nat \/
        ge (t - last (scene_changes st))%float (min_scene_length self) = true) /\
       changes = scene_changes st ++ [t])
      \/ (List.length (scene_changes st) <> 1%nat /\
          ge (t - last (scene_changes st))%float (min_scene_length self) = false /\
          changes = scene_changes st)))
  \/ (gt d (threshold self) = false /\ changes = scene_changes st).
Proof.
  intros Hprev H d. unfold consider_frame in H. rewrite Hprev in H. fold d in H.
  destruct (gt d (threshold self)) eqn:Hgt.
  - left. split; [reflexivity|].
    apply bind_inv in H as (t & Hdiv & H). exists t. split; [exact Hdiv|].
    destruct (List.length (scene_changes st) =? 1)%nat eqn:Hlen; cbn [orb] in H.
    + injection H as <-. left. apply Nat.eqb_eq in Hlen. auto.
    + apply Nat.eqb_neq in Hlen.
      destruct (ge _ _) eqn:Hge; injection H as <-; [left | right]; auto.
  - right. injection H as <-. auto.
Qed.

Lemma body_Ok self fps total cb st frame st' :
  loop_body self fps total cb st frame = Ok st' ->
  exists changes w,
    consider_frame self fps st frame = Ok changes /\
    notify_progress cb total (S (frame_count st)) (sink st) = Ok w /\
    st' = {| scene_changes := changes; prev_frame := Some frame;
             frame_count := S (frame_count st); reads := reads st; sink := w |}.
Proof.
  unfold loop_body. intro H.
  apply bind_inv in H as (changes & Hc & H).
  apply bind_inv in H as (w & Hw & H).
  injection H as <-. eauto.
Qed.

Lemma iterate_split self fps total cb l1 l2 st :
  iterate self fps total cb (l1 ++ l2) st =
  bind (iterate self fps total cb l1 st) (iterate self fps total cb l2).
Proof.
  revert st. induction l1 as [|f l1 IH]; intro st; [reflexivity|].
  simpl. destruct (loop_body _ _ _ _ _ _); simpl; [apply IH | reflexivity].
Qed.

Lemma iterate_count self fps total cb l st st' :
  iterate self fps total cb l st = Ok st' ->
  frame_count st' = (frame_count st + List.length l)%nat /\
  reads st' = (reads st + List.length l)%nat.
Proof.
  revert st. induction l as [|f l IH]; intros st H.
  - injection H as <-. simpl. auto.
  - simpl in H. apply bind_inv in H as (s1 & Hb & H).
    apply body_Ok in Hb as (changes & w & _ & _ & ->).
    apply IH in H as (Hc & Hr). cbn [frame_count reads read_once] in *.
    rewrite Hc, Hr. cbn [List.length]. lia.
Qed.

(** The loop only ever appends. *)
Lemma iterate_extends self fps total cb l st st' :
  iterate self fps total cb l st = Ok st' ->
  exists later, scene_changes st' = scene_changes st ++ later.
Proof.
  revert st. induction l as [|f l IH]; intros st H.
  - injection H as <-. exists []. now rewrite app_nil_r.
  - simpl in H. apply bind_inv in H as (s1 & Hb & H).
    apply body_Ok in Hb as (c & w & Hc & _ & ->).
    apply IH in H as (later & Hsc). cbn [scene_changes] in Hsc.
    destruct (prev_frame st) as [p|] eqn:Hprev.
    + eapply consider_Ok in Hc; [|exact Hprev].
      cbn [scene_changes frame_count read_once] in Hc.
      destruct Hc as [(_ & t & _ & [(_ & ->) | (_ & _ & ->)]) | (_ & ->)].
      * exists (t :: later). rewrite Hsc, <- app_assoc. reflexivity.
      * eauto.
      * eauto.
    + rewrite consider_first in Hc by exact Hprev. injection Hc as <-.
      cbn [scene_changes read_once] in Hsc. eauto.
Qed.

(** The loop ends with the read that finds the source exhausted. *)
Lemma scan_done self fps total cb l st :
  match iterate self fps total cb l st with
  | Ok st' => scan self fps total cb l st = (read_once st', None)
  | Raise e => exists s, scan self fps total cb l st = (s, Some e)
  end.
Proof.
  revert st. induction l as [|f l IH]; intro st; [reflexivity|].
  simpl. destruct (loop_body _ _ _ _ _ _) as [s1|e]; simpl; [apply IH | eauto].
Qed.

Lemma scan_returns self fps total cb l st s :
  scan self fps total cb l st = (s, None) ->
  exists st', iterate self fps total cb l st = Ok st' /\ s = read_once st'.
Proof.
  intro H. pose proof (scan_done self fps total cb l st) as Hs.
  destruct (iterate _ _ _ _ _ _) as [st'|e].
  - exists st'. split; [reflexivity|congruence].
  - destruct Hs as [s' Hs]. congruence.
Qed.

(** A returned list comes from a completed scan. *)
Lemma detect_returns self cap cb w ivs :
  returned (detect_scenes self cap cb w) = Ok ivs ->
  exists total duration st,
    isOpened cap = true /\
    int (CAP_PROP_FRAME_COUNT cap) = Ok total /\
    truediv total (CAP_PROP_FPS cap) = Ok duration /\
    iterate self (CAP_PROP_FPS cap) total cb (stream cap) (initial w) = Ok st /\
    ivs = scene_pairs (scene_changes st ++ [duration]) /\
    detect_scenes self cap cb w =
    {| detector := {| threshold := threshold self;
                      min_scene_length := min_scene_length self;
                      scene_timestamps := ivs |};
       cap_reads := S (List.length (stream cap));
       progress_sink := sink st;
       returned := Ok ivs |}.
Proof.
  unfold detect_scenes. destruct (isOpened cap); cbn [negb]; [|discriminate].
  destruct (int _) as [total|e] eqn:Hint; [|discriminate].
  destruct (truediv _ _) as [duration|e] eqn:Hdiv; [|discriminate].
  destruct (scan _ _ _ _ _ _) as [s [e|]] eqn:Hscan; [discriminate|].
  apply scan_returns in Hscan as (st & Hit & ->).
  cbn [returned read_once scene_changes reads sink]. intro H. injection H as <-.
  exists total, duration, st.
  split; [reflexivity|]. split; [reflexivity|]. split; [exact Hdiv|].
  split; [exact Hit|]. split; [reflexivity|].
  apply iterate_count in Hit as [_ Hr]. cbn [reads initial] in Hr.
  rewrite Hr. reflexivity.
Qed.

Lemma detect_nonempty self cap cb w ivs :
  returned (detect_scenes self cap cb w) = Ok ivs -> ivs <> [].
Proof.
  intro H. apply detect_returns in H as (total & duration & st & _ & _ & _ & Hit & -> & _).
  apply iterate_extends in Hit as (later & Hsc).
  intro Habs. apply (f_equal (@List.length _)) in Habs.
  rewrite pairs_of_boundaries_length, Hsc in Habs. discriminate Habs.
Qed.

End LoopFacts.

(** *** The acceptance rule *)



Example gate_on_a_rounded_difference :
  (61 / 30 - 1 / 30)%float = 0x1.fffffffffffffp+0%float /\
  ge (61 / 30 - 1 / 30)%float 2%float = false /\
  returned (detect_scenes (init 25 2)
              (capture 30 90 ((0 :: repeat 9 60) ++ repeat 0 29)%Z) None tt)
  = Ok [(0, 1 / 30); (1 / 30, 3)]%float /\
  returned (detect_scenes (init 25 2)
              (capture 30 90 ((0 :: repeat 9 61) ++ repeat 0 28)%Z) None tt)
  = Ok [(0, 1 / 30); (1 / 30, 62 / 30); (62 / 30, 3)]%float.
Proof. repeat split; vm_compute; reflexivity. Qed.

(** *** The splitter *)

Section SplitterFacts.

Context {env : Env}.

Lemma split_loop_closed (output_dir video_name : string)
    (todo : list (nat * (float * float))) (created : list string)
    (calls : list call) :
  split_loop output_dir video_name todo created calls =
  (created ++ map (clip_path output_dir video_name)
                  (filter (written output_dir video_name) (filter long_enough todo)),
   calls ++ map (attempt output_dir video_name) (filter long_enough todo)).
Proof.
  revert created calls.
  induction todo as [|[i [s e]] todo IH]; intros created calls.
  - simpl. now rewrite !app_nil_r.
  - cbn [split_loop filter]. cbv zeta.
    change (long_enough (i, (s, e))) with (negb (lt (e - s)%float 0.5%float)).
    destruct (lt (e - s)%float 0.5%float); cbn [negb]; [apply IH|].
    cbn [filter].
    change (written output_dir video_name (i, (s, e)))
      with (write_videofile i
              (path_join output_dir (output_filename_of video_name (i + 1) s e)) s e).
    destruct (write_videofile _ _ _ _) eqn:Hok; rewrite IH; cbn [map];
      unfold attempt, written, clip_path; cbn [fst snd];
      rewrite ?Hok, <- ?app_assoc; reflexivity.
Qed.

(** No clip is requested for an interval under the floor. *)
Lemma no_attempt_when_short (output_dir name : string)
    (ts : list (float * float)) (i : nat) (s e : float) :
  nth_error ts i = Some (s, e) -> lt (e - s)%float 0.5%float = true ->
  forall p s' e' ok,
    ~ In (WriteVideofile i p s' e' ok)
         (map (attempt output_dir name) (filter long_enough (enumerate ts))).
Proof.
  intros Hnth Hshort p s' e' ok Hin.
  apply in_map_iff in Hin as ([j [a b]] & Heq & Hin).
  unfold attempt in Heq. cbn [fst snd] in Heq. injection Heq as -> _ -> -> _.
  apply filter_In in Hin as [Hin Hlong].
  apply enumerate_from_In in Hin as [_ Hnth'].
  rewrite Nat.sub_0_r, Hnth in Hnth'. injection Hnth' as -> ->.
  unfold long_enough in Hlong. cbn [fst snd] in Hlong.
  rewrite Hshort in Hlong. discriminate.
Qed.

Lemma report_intervals (ts : list (float * float)) :
  map (fun sc => (start_time sc, end_time sc)) (report_scenes ts) = ts.
Proof.
  unfold report_scenes, enumerate. rewrite map_map.
  rewrite <- (enumerate_from_snd 0 ts) at 2.
  apply map_ext. intros [i [s e]]. reflexivity.
Qed.

Lemma report_numbers (ts : list (float * float)) :
  map scene_number (report_scenes ts) = seq 1 (List.length ts).
Proof.
  unfold report_scenes, enumerate. rewrite map_map.
  rewrite <- seq_shift, <- (enumerate_from_fst 0 ts), map_map.
  apply map_ext. intros [i [s e]]. simpl. lia.
Qed.

(** Every way a call of the splitter can end. *)
Lemma split_outcomes (self : SceneDetector) (video_path output_dir : string)
    (timestamps_arg : option (list (float * float))) :
  let ts := match timestamps_arg with
            | None => scene_timestamps self
            | Some l => l
            end in
  let name := video_name_of video_path in
  let attempts := map (attempt output_dir name) (filter long_enough (enumerate ts)) in
  let created := map (clip_path output_dir name)
                     (filter (written output_dir name)
                             (filter long_enough (enumerate ts))) in
  let out := split_video_into_scenes self video_path output_dir timestamps_arg in
  (ts = [] /\
   out = ([], Raise (Exception "No scene timestamps available. Run detect_scenes() first.")))
  \/ (ts <> [] /\
      ((exists e, makedirs output_dir = Some e /\
                  out = ([Makedirs output_dir], Raise e))
       \/ (exists e, load video_path = Some e /\
                     out = ([Makedirs output_dir; VideoFileClip video_path], Raise e))
       \/ (exists e, close video_path = Some e /\
                     out = ([Makedirs output_dir; VideoFileClip video_path]
                            ++ attempts ++ [VideoClose], Raise e))
       \/ (exists info_file info,
             total_scenes info = List.length ts /\
             created_clips info = List.length created /\
             scenes info = report_scenes ts /\
             ((exists e, dump info_file info = Some e /\
                 out = ([Makedirs output_dir; VideoFileClip video_path]
                        ++ attempts ++ [VideoClose; JsonDump info_file info],
                        Raise e))
              \/ out = ([Makedirs output_dir; VideoFileClip video_path]
                        ++ attempts ++ [VideoClose; JsonDump info_file info],
                        Ok created))))).
Proof.
  intros ts name attempts created out. subst out attempts created.
  unfold split_video_into_scenes. fold ts name. clearbody ts name.
  destruct ts as [|iv ts']; [left; auto|].
  right. split; [discriminate|]. cbv beta iota zeta.
  destruct (makedirs output_dir) as [e|]; [left; eauto|]. right.
  destruct (load video_path) as [e|]; [left; eauto|]. right.
  rewrite split_loop_closed. cbv beta iota zeta.
  destruct (close video_path) as [e|].
  - left. exists e. split; [reflexivity|]. now rewrite <- app_assoc.
  - right.
    match goal with |- context [dump ?f ?i] => exists f, i end.
    cbn [total_scenes created_clips scenes].
    split; [reflexivity|]. split; [reflexivity|]. split; [reflexivity|].
    destruct (dump _ _) as [e|].
    + left. exists e. split; [reflexivity|]. now rewrite <- app_assoc.
    + right. now rewrite <- app_assoc.
Qed.

End SplitterFacts.

(** C9.  Clip floor and report divergence, in the code's arithmetic.  However
    a call of [split_video_into_scenes] ends, no clip is requested for an
    interval whose duration, computed and compared in binary64 as line 141
    and line 143 do, is below 0.5.  When the call returns, a clip was
    requested for exactly the other intervals, the list returned holds the
    paths of the requests that succeeded, and the report written last lists
    every interval in order, numbered from 1, with [total_scenes] the number
    of intervals and [created_clips] the number of clips returned. *)
Theorem clip_floor_and_report {env : Env} (self : SceneDetector)
    (video_path output_dir : string)
    (timestamps_arg : option (list (float * float)))
    (calls : list call) (res : result (list string)) :
  split_video_into_scenes self video_path output_dir timestamps_arg = (calls, res) ->
  let ts := match timestamps_arg with
            | None => scene_timestamps self
            | Some l => l
            end in
  let name := video_name_of video_path in
  (forall i s e, nth_error ts i = Some (s, e) ->
     lt (e - s)%float 0.5%float = true ->
     forall p s' e' ok, ~ In (WriteVideofile i p s' e' ok) calls) /\
  (forall created, res = Ok created ->
     exists info_file info,
       calls = [Makedirs output_dir; VideoFileClip video_path]
               ++ map (attempt output_dir name) (filter long_enough (enumerate ts))
               ++ [VideoClose; JsonDump info_file info] /\
       created = map (clip_path output_dir name)
                     (filter (written output_dir name)
                             (filter long_enough (enumerate ts))) /\
       map (fun sc => (start_time sc, end_time sc)) (scenes info) = ts /\
       map scene_number (scenes info) = seq 1 (List.length ts) /\
       total_scenes info = List.length ts /\
       created_clips info = List.length created).
Proof.
  intros H ts name.
  pose proof (split_outcomes self video_path output_dir timestamps_arg) as Hout.
  cbv zeta in Hout. fold ts name in Hout. rewrite H in Hout.
  split.
  - intros i s e Hnth Hshort p s' e' ok Hin.
    pose proof (no_attempt_when_short output_dir name ts i s e Hnth Hshort
                  p s' e' ok) as Hno.
    assert (Hsplit : forall front back : list call,
               (forall c, In c front -> forall j q a b o, c <> WriteVideofile j q a b o) ->
               (forall c, In c back -> forall j q a b o, c <> WriteVideofile j q a b o) ->
               In (WriteVideofile i p s' e' ok)
                  (front ++ map (attempt output_dir name)
                                (filter long_enough (enumerate ts)) ++ back) ->
               False).
    { intros front back Hf Hb Hin'.
      apply in_app_or in Hin' as [Hin'|Hin']; [eapply Hf; eauto|].
      apply in_app_or in Hin' as [Hin'|Hin']; [auto | eapply Hb; eauto]. }
    assert (Hfront : forall c, In c [Makedirs output_dir; VideoFileClip video_path] ->
                     forall j q a b o, c <> WriteVideofile j q a b o)
      by (intros c [<-|[<-|[]]]; discriminate).
    destruct Hout as [(_ & Heq) | (_ & [(e0 & _ & Heq) | [(e0 & _ & Heq)
                     | [(e0 & _ & Heq) | (f & info & _ & _ & _ & [(e0 & _ & Heq) | Heq])]]])];
      injection Heq as -> _.
    + exact Hin.
    + destruct Hin as [Hin|[]]. discriminate Hin.
    + apply (Hfront _ Hin _ _ _ _ _ eq_refl).
    + eapply Hsplit; [exact Hfront | | exact Hin].
      intros c [<-|[]]. discriminate.
    + eapply Hsplit; [exact Hfront | | exact Hin].
      intros c [<-|[<-|[]]]; discriminate.
    + eapply Hsplit; [exact Hfront | | exact Hin].
      intros c [<-|[<-|[]]]; discriminate.
  - intros created ->.
    destruct Hout as [(_ & Heq) | (_ & [(e0 & _ & Heq) | [(e0 & _ & Heq)
                     | [(e0 & _ & Heq) | (f & info & Ht & Hc & Hs & [(e0 & _ & Heq) | Heq])]]])];
      try discriminate Heq.
    injection Heq as -> ->. exists f, info.
    split; [reflexivity|]. split; [reflexivity|].
    rewrite Hs. split; [apply report_intervals|]. split; [apply report_numbers|].
    split; assumption.
Qed.

(** The durations of (0.1, 0.6) and (0.2, 0.7) are [0.5] and
    [0.49999999999999994] in binary64: the first interval gets a clip and
    the second does not, both are in the report. *)
Lemma clip_floor_and_report_witness :
  let ts := [(0x1.999999999999ap-4, 0x1.3333333333333p-1);
             (0x1.999999999999ap-3, 0x1.6666666666666p-1)]%float in
  exists calls created,
    split_video_into_scenes (env := F64.env) (init 25 2) "v" "out" (Some ts)
    = (calls, Ok created) /\
    created = ["out/v_scene_1.mp4"] /\
    (forall i s e, nth_error ts i = Some (s, e) ->
       lt (e - s)%float 0.5%float = true ->
       forall p s' e' ok, ~ In (WriteVideofile i p s' e' ok) calls) /\
    (forall created', Ok created = Ok created' ->
       exists info_file info,
         calls = [Makedirs "out"; VideoFileClip "v"]
                 ++ map (attempt (env := F64.env) "out" "v")
                        (filter long_enough (enumerate ts))
                 ++ [VideoClose; JsonDump info_file info] /\
         created' = map (clip_path (env := F64.env) "out" "v")
                        (filter (written (env := F64.env) "out" "v")
                                (filter long_enough (enumerate ts))) /\
         map (fun sc => (start_time sc, end_time sc)) (scenes info) = ts /\
         map scene_number (scenes info) = seq 1 (List.length ts) /\
         total_scenes info = List.length ts /\
         created_clips info = List.length created').
Proof.
  cbv zeta. do 2 eexists. split; [vm_compute; reflexivity|].
  split; [reflexivity|].
  apply (clip_floor_and_report (env := F64.env) (init 25 2) "v" "out"
           (Some [(0x1.999999999999ap-4, 0x1.3333333333333p-1);
                  (0x1.999999999999ap-3, 0x1.6666666666666p-1)]%float)).
  vm_compute. reflexivity.
Defined.

(** *** The pipeline *)

(** X13.  What [process_video] adds to detection.  When [detect_scenes]
    raises, [process_video] raises the same exception and no call is made on
    the file system or on moviepy.  When it returns, the splitter is entered
    with the returned list, which is never empty: the directory is the one
    passed when one is passed, [os.makedirs] is always called, and
    [process_video] then raises only what [os.makedirs], [VideoFileClip],
    [video.close] or the writing of the report raises; if none does, the
    report written last counts every detected interval and the pair returned
    holds the detected intervals with the clips created, never more clips
    than intervals. *)
Theorem process_video_outcome {cv : CV2} {W : Type} {env : Env}
    (self : SceneDetector) (cap : VideoCapture) (output_dir : option string)
    (cb : option (@callback W)) (w : W) :
  let ran := process_video self cap output_dir cb w in
  let detected := detect_scenes self cap cb w in
  processed_detector ran = detector detected /\
  processed_reads ran = cap_reads detected /\
  processed_sink ran = progress_sink detected /\
  (forall e, returned detected = Raise e ->
     processed_returned ran = Raise e /\ processed_calls ran = []) /\
  (forall ivs, returned detected = Ok ivs ->
     ivs <> [] /\
     exists dir rest,
       processed_calls ran = Makedirs dir :: rest /\
       (forall d, output_dir = Some d -> dir = d) /\
       (forall e, processed_returned ran = Raise e ->
          makedirs dir = Some e \/ load (video_path cap) = Some e \/
          close (video_path cap) = Some e \/
          exists info_file info, dump info_file info = Some e) /\
       (forall r, processed_returned ran = Ok r ->
          exists created front info_file info,
            r = (ivs, created) /\
            processed_calls ran = front ++ [JsonDump info_file info] /\
            total_scenes info = List.length ivs /\
            created_clips info = List.length created /\
            (List.length created <= List.length ivs)%nat)).
Proof.
  cbv zeta. unfold process_video.
  destruct (returned (detect_scenes self cap cb w)) as [ivs|e] eqn:Hret.
  - set (dir := match output_dir with Some d => d | None => _ end).
    pose proof (split_outcomes (detector (detect_scenes self cap cb w))
                  (video_path cap) dir (Some ivs)) as Hout.
    cbv zeta in Hout.
    destruct (split_video_into_scenes _ _ dir (Some ivs)) as [calls res].
    cbn [processed_detector processed_reads processed_sink processed_returned
         processed_calls].
    repeat (split; [reflexivity|]). split; [discriminate|].
    intros ivs' Heq. injection Heq as <-.
    pose proof (detect_nonempty _ _ _ _ _ Hret) as Hne.
    split; [exact Hne|]. exists dir.
    assert (Hdir : forall d, output_dir = Some d -> dir = d)
      by (intros d ->; reflexivity).
    destruct Hout as [(Habs & _) | (_ & [(e0 & He & Heq) | [(e0 & He & Heq)
                     | [(e0 & He & Heq) | (f & info & Ht & Hc & _ & [(e0 & He & Heq) | Heq])]]])];
      [contradiction | injection Heq as -> -> ..].
    + eexists. split; [reflexivity|]. split; [exact Hdir|].
      split; [|discriminate]. intros e Heq. injection Heq as <-. auto.
    + eexists. split; [reflexivity|]. split; [exact Hdir|].
      split; [|discriminate]. intros e Heq. injection Heq as <-. auto.
    + eexists. split; [reflexivity|]. split; [exact Hdir|].
      split; [|discriminate]. intros e Heq. injection Heq as <-. auto.
    + eexists. split; [reflexivity|]. split; [exact Hdir|].
      split; [|discriminate]. intros e Heq. injection Heq as <-.
      right. right. right. eauto.
    + eexists. split; [reflexivity|]. split; [exact Hdir|].
      split; [discriminate|]. intros r Heq. injection Heq as <-.
      eexists.
      exists ([Makedirs dir; VideoFileClip (video_path cap)]
              ++ map (attempt dir (video_name_of (video_path cap)))
                     (filter long_enough (enumerate ivs))
              ++ [VideoClose]), f, info.
      split; [reflexivity|].
      split; [rewrite <- !app_assoc; reflexivity|].
      split; [exact Ht|]. split; [exact Hc|].
      rewrite length_map.
      etransitivity; [apply filter_length_le|].
      etransitivity; [apply filter_length_le|].
      unfold enumerate. now rewrite enumerate_from_length.
  - cbn [processed_detector processed_reads processed_sink processed_returned
         processed_calls].
    repeat (split; [reflexivity|]). split; [|discriminate].
    intros e' Heq. injection Heq as <-. auto.
Qed.

(** Detection returns two scenes, and the empty output directory cannot be
    made: [process_video] raises after detection has succeeded. *)
Example process_video_can_fail_after_detection :
  let cap := capture 10 4 [0; 0; 9; 9]%Z in
  returned (detect_scenes (init 25 2) cap None tt)
  = Ok [(0, 2 / 10); (2 / 10, 4 / 10)]%float /\
  processed_returned (process_video (env := F64.env) (init 25 2) cap (Some "") None tt)
  = Raise (LibraryError "FileNotFoundError") /\
  processed_calls (process_video (env := F64.env) (init 25 2) cap (Some "") None tt)
  = [Makedirs ""].
Proof. cbv zeta. repeat split; vm_compute; reflexivity. Qed.

End F64Facts.
